(** * paper-feed: a shallow embedding of [get_RSS.py]

    The script aggregates journal RSS feeds, keeps the entries that match a
    keyword query, merges them with the entries of the previous output and
    writes the merged feed back.  This file embeds the script function by
    function and states its specification as theorems.

    Conventions of the embedding.
    - A Python [str] is a [string]; a character is the code point it holds,
      restricted to the range 0..255 (Latin-1), where [str.lower],
      [str.strip] and the regular expression of the script are given in
      full.
    - A naive [datetime] is the integer number of microseconds it denotes;
      comparison of datetimes is comparison of these integers.  A time
      tuple is what its conversion to a datetime gives: the datetime, or
      the exception raised for a tuple out of range.
    - Effects (environment, files, network, clock, standard output) are
      threaded through a state monad over [World].
    - [feedparser] and [rfeed] are libraries outside the script: what their
      parsers return is data of the world, their serializer is a parameter. *)

From Stdlib Require Import ZArith NArith Ascii String DecimalString Sorted Permutation.
From stdpp Require Import base list strings gmap sorting.

Local Open Scope Z_scope.

(** ** Python string primitives *)

Module Py.

Definition LF : ascii := "010"%char.
Definition CR : ascii := "013"%char.

(** [str.isspace] on one character, code points 0..255. *)
Definition isspace (c : ascii) : bool :=
  let n := N_of_ascii c in
  ((9 <=? n) && (n <=? 13) || (28 <=? n) && (n <=? 32)
   || (n =? 133) || (n =? 160))%N.

Fixpoint lstrip (s : string) : string :=
  match s with
  | EmptyString => EmptyString
  | String c s' => if isspace c then lstrip s' else s
  end.

Fixpoint rstrip (s : string) : string :=
  match s with
  | EmptyString => EmptyString
  | String c s' =>
      match rstrip s' with
      | EmptyString => if isspace c then EmptyString else String c EmptyString
      | r => String c r
      end
  end.

(** [s.strip()] *)
Definition strip (s : string) : string := rstrip (lstrip s).

(** [str.lower] on one character, code points 0..255: the letters A..Z
    and the Latin-1 capitals 0xC0..0xDE (0xD7, the multiplication sign,
    is not a letter). *)
Definition lower_char (c : ascii) : ascii :=
  let n := N_of_ascii c in
  if ((65 <=? n) && (n <=? 90)
      || (192 <=? n) && (n <=? 222) && negb (n =? 215))%N
  then ascii_of_N (n + 32) else c.

(** [s.lower()] *)
Fixpoint lower (s : string) : string :=
  match s with
  | EmptyString => EmptyString
  | String c s' => String (lower_char c) (lower s')
  end.

(** [s.startswith(p)] *)
Fixpoint startswith (p s : string) : bool :=
  match p, s with
  | EmptyString, _ => true
  | String a p', String b s' => Ascii.eqb a b && startswith p' s'
  | String _ _, EmptyString => false
  end.

(** [x in s] for strings: [x] occurs in [s] as a contiguous substring. *)
Fixpoint contains (x s : string) : bool :=
  startswith x s
  || match s with
     | EmptyString => false
     | String _ s' => contains x s'
     end.

(** [s.split(sep)] for a non-empty separator (the script only splits on
    the constants [' NOT '], [' AND '], ['\n'] and [';']; Python raises
    [ValueError] on an empty separator).  The scan is left to right and
    matches do not overlap: after a match the remaining characters of the
    separator are skipped. *)
Fixpoint split_from (sep : string) (skip : nat) (s : string) : list string :=
  match s with
  | EmptyString => [EmptyString]
  | String c s' =>
      match skip with
      | S k => split_from sep k s'
      | O =>
          if startswith sep s
          then EmptyString :: split_from sep (String.length sep - 1) s'
          else match split_from sep 0 s' with
               | piece :: rest => String c piece :: rest
               | [] => [String c EmptyString]
               end
      end
  end.

Definition split (sep s : string) : list string := split_from sep 0 s.

(** [sep.join(l)], used to state what [split] computes. *)
Fixpoint join (sep : string) (l : list string) : string :=
  match l with
  | [] => EmptyString
  | [x] => x
  | x :: rest => x +:+ sep +:+ join sep rest
  end.

(** [s[:n]] *)
Fixpoint slice_to (n : nat) (s : string) : string :=
  match n, s with
  | S k, String c s' => String c (slice_to k s')
  | _, _ => EmptyString
  end.

(** Text-mode reading with universal newlines: ['\r\n'] and ['\r'] are
    read as ['\n']. *)
Fixpoint universal_newlines (s : string) : string :=
  match s with
  | EmptyString => EmptyString
  | String c s' =>
      if Ascii.eqb c CR then
        match s' with
        | String c' s'' =>
            if Ascii.eqb c' LF then String LF (universal_newlines s'')
            else String LF (universal_newlines s')
        | EmptyString => String LF EmptyString
        end
      else String c (universal_newlines s')
  end.

(** [for line in f]: the lines of a text, each with its ['\n'] when it
    has one. *)
Fixpoint iter_lines (s : string) : list string :=
  match s with
  | EmptyString => []
  | String c s' =>
      if Ascii.eqb c LF then String c EmptyString :: iter_lines s'
      else match iter_lines s' with
           | [] => [String c EmptyString]
           | line :: rest => String c line :: rest
           end
  end.

(** [str(n)] for a non-negative integer. *)
Definition str_nat (n : nat) : string :=
  NilEmpty.string_of_uint (Nat.to_uint n).

(** Truthiness of a string: non-empty. *)
Definition truthy (s : string) : bool :=
  match s with EmptyString => false | _ => true end.

End Py.

(** [x] is a substring of [s]. *)
Definition Substring (x s : string) : Prop :=
  exists l r : string, s = l +:+ x +:+ r.

(** ** Data *)

(** The dictionaries that flow through the pipeline.  The key ['is_old'] is
    present (and [True]) only on entries read back from the previous
    output. *)
Module Entry.
Record t : Type := mk {
  title : string;
  link : string;
  pub_date : Z;
  summary : string;
  journal : string;
  id : string;
  is_old : option bool
}.
End Entry.

#[global] Instance entry_eq_dec : EqDecision Entry.t.
Proof. solve_decision. Defined.

(** ** The query matcher *)

(** The loop over [and_keywords]: [match] stays [True] unless some keyword
    is not in the text. *)
Fixpoint and_loop (and_keywords : list string) (text_to_search : string) : bool :=
  match and_keywords with
  | [] => true
  | keyword :: rest =>
      if negb (Py.contains keyword text_to_search) then false
      else and_loop rest text_to_search
  end.

(** The loop over [exclude_keywords]: [excluded] becomes [True] at the first
    keyword found in the text. *)
Fixpoint not_loop (exclude_keywords : list string) (text_to_search : string) : bool :=
  match exclude_keywords with
  | [] => false
  | exclude_kw :: rest =>
      if Py.contains exclude_kw text_to_search then true
      else not_loop rest text_to_search
  end.

Definition strip_lower (k : string) : string := Py.lower (Py.strip k).

Fixpoint query_loop (text_to_search : string) (queries : list string) : bool :=
  match queries with
  | [] => false
  | query :: rest =>
      let not_parts := Py.split " NOT " query in
      let and_part := hd EmptyString not_parts in
      let exclude_keywords :=
        if (1 <? length not_parts)%nat
        then strip_lower <$> drop 1 not_parts else [] in
      let and_keywords := strip_lower <$> Py.split " AND " and_part in
      let match_ := and_loop and_keywords text_to_search in
      if negb match_ then query_loop text_to_search rest
      else
        let excluded := not_loop exclude_keywords text_to_search in
        if match_ && negb excluded then true
        else query_loop text_to_search rest
  end.

Definition match_entry (entry : Entry.t) (queries : list string) : bool :=
  let text_to_search :=
    Py.lower (Entry.title entry +:+ " " +:+ Entry.summary entry) in
  query_loop text_to_search queries.

(** ** What the libraries exchange with the script *)

(** A call that can raise: the exception's text, or the value. *)
Inductive result (A : Type) : Type :=
  | Raised (e : string)
  | Returned (a : A).
Arguments Raised {A} e.
Arguments Returned {A} a.

(** A time tuple ([struct_time]) is represented by what
    [datetime.datetime.fromtimestamp(time.mktime(_))] does with it: the
    exception it raises (a tuple out of range, such as a year 1), or the
    datetime it returns. *)
Definition struct_time : Type := result Z.

(** An entry of a parsed feed, as [feedparser] hands it over: a dictionary
    in which each key may be absent; the value under a date key can be
    [None]. *)
Module FeedEntry.
Record t : Type := mk {
  title : option string;
  link : option string;
  summary : option string;
  description : option string;
  id : option string;
  author : option string;
  published_parsed : option (option struct_time);
  updated_parsed : option (option struct_time)
}.
End FeedEntry.

(** The result of [feedparser.parse]: [bozo] (absent, or an integer, [True]
    being 1), the feed-level title and the entries. *)
Module Parsed.
Record t : Type := mk {
  bozo : option Z;
  feed_title : option string;
  entries : list FeedEntry.t
}.
End Parsed.

(** An [rfeed.Item] and an [rfeed.Feed], as the script builds them. *)
Module Item.
Record t : Type := mk {
  title : string;
  link : string;
  description : string;
  author : string;
  guid : string;
  pubDate : Z
}.
End Item.

Module Feed.
Record t : Type := mk {
  title : string;
  link : string;
  description : string;
  language : string;
  lastBuildDate : Z;
  items : list Item.t
}.
End Feed.

(** ** The world and its monad *)

Record World : Type := mkWorld {
  environ : gmap string string;          (* os.environ *)
  files : gmap string string;            (* the text files, by path *)
  remote : string -> nat -> result Parsed.t;
                                         (* feedparser.parse(url) at the n-th request *)
  requests : list string;                (* the urls requested so far *)
  clock : nat -> Z;                      (* datetime.now() at its n-th reading *)
  clock_reads : nat;
  slept : Z;                             (* seconds spent in time.sleep *)
  stdout : list string                   (* the lines printed so far *)
}.

Definition M (A : Type) : Type := World -> A * World.

Definition ret {A : Type} (a : A) : M A := fun w => (a, w).

Definition bind {A B : Type} (m : M A) (k : A -> M B) : M B :=
  fun w => let (a, w') := m w in k a w'.

Declare Scope py_scope.
Delimit Scope py_scope with py.
Notation "x <- m ;; k" := (bind m (fun x => k))
  (at level 20, m at level 99, k at level 200, only parsing) : py_scope.
Notation "m ;; k" := (bind m (fun _ => k))
  (at level 100, k at level 200, only parsing, right associativity) : py_scope.
Local Open Scope py_scope.

Definition print (line : string) : M unit := fun w =>
  (tt, mkWorld (environ w) (files w) (remote w) (requests w) (clock w)
         (clock_reads w) (slept w) (stdout w ++ [line])).

Definition environ_get (name : string) : M (option string) := fun w =>
  (environ w !! name, w).

Definition path_exists (path : string) : M bool := fun w =>
  (bool_decide (is_Some (files w !! path)), w).

Definition read_text (path : string) : M string := fun w =>
  (Py.universal_newlines (default EmptyString (files w !! path)), w).

Definition write_text (path content : string) : M unit := fun w =>
  (tt, mkWorld (environ w) (<[path := content]> (files w)) (remote w)
         (requests w) (clock w) (clock_reads w) (slept w) (stdout w)).

Definition datetime_now : M Z := fun w =>
  (clock w (clock_reads w),
   mkWorld (environ w) (files w) (remote w) (requests w) (clock w)
     (S (clock_reads w)) (slept w) (stdout w)).

Definition time_sleep (seconds : Z) : M unit := fun w =>
  (tt, mkWorld (environ w) (files w) (remote w) (requests w) (clock w)
         (clock_reads w) (slept w + seconds) (stdout w)).

Definition feedparser_parse_url (url : string) : M (result Parsed.t) := fun w =>
  (remote w url (length (requests w)),
   mkWorld (environ w) (files w) (remote w) (requests w ++ [url]) (clock w)
     (clock_reads w) (slept w) (stdout w)).

(** A loop that appends one value for each element, inside a [try]: it
    stops at the first exception, and the list built so far is lost. *)
Fixpoint try_each {A B : Type} (f : A -> M (result B)) (l : list A)
  : M (result (list B)) :=
  match l with
  | [] => ret (Returned [])
  | x :: rest =>
      r <- f x ;;
      match r with
      | Raised e => ret (Raised e)
      | Returned y =>
          rs <- try_each f rest ;;
          match rs with
          | Raised e => ret (Raised e)
          | Returned ys => ret (Returned (y :: ys))
          end
      end
  end.

(** [d.get(key, default)] *)
Definition dict_get {A : Type} (field : option A) (dflt : A) : A :=
  match field with Some v => v | None => dflt end.

(** ** Configuration *)

Definition OUTPUT_FILE : string := "filtered_feed.xml".
Definition MAX_ITEMS : nat := 1000.

(** [[line.strip() for line in lines if line.strip()]] *)
Definition stripped_nonblank (lines : list string) : list string :=
  Py.strip <$> List.filter (fun line => Py.truthy (Py.strip line)) lines.

Definition load_config (filename : string) (env_var_name : option string)
  : M (list string) :=
  from_env <- match env_var_name with
              | Some name =>
                  if Py.truthy name then
                    v <- environ_get name ;;
                    ret (match v with
                         | Some content =>
                             if Py.truthy content then Some (name, content) else None
                         | None => None
                         end)
                  else ret None
              | None => ret None
              end ;;
  match from_env with
  | Some (name, content) =>
      print ("Loading config from environment variable: " +:+ name) ;;
      if Py.contains (String Py.LF EmptyString) content
      then ret (stripped_nonblank (Py.split (String Py.LF EmptyString) content))
      else ret (stripped_nonblank (Py.split ";" content))
  | None =>
      present <- path_exists filename ;;
      if present then
        print ("Loading config from local file: " +:+ filename) ;;
        content <- read_text filename ;;
        ret (Py.strip <$>
               List.filter
                 (fun line => Py.truthy (Py.strip line)
                              && negb (Py.startswith "#" line))
                 (Py.iter_lines content))
      else ret []
  end.

(** ** Text cleanup *)

(** A character class of a regular expression: inclusive code-point
    ranges. *)
Definition char_class : Type := list (N * N).

Definition class_matches (cls : char_class) (c : ascii) : bool :=
  existsb (fun r => (fst r <=? N_of_ascii c) && (N_of_ascii c <=? snd r))%N cls.

(** [re.sub(cls, '', text)] for a one-character class. *)
Fixpoint re_sub_empty (cls : char_class) (text : string) : string :=
  match text with
  | EmptyString => EmptyString
  | String c rest =>
      if class_matches cls c then re_sub_empty cls rest
      else String c (re_sub_empty cls rest)
  end.

(** [r'[\x00-\x08\x0b\x0c\x0e-\x1f]'] *)
Definition illegal_chars : char_class :=
  [(0, 8); (11, 11); (12, 12); (14, 31)]%N.

Definition remove_illegal_xml_chars (text : string) : string :=
  if negb (Py.truthy text) then EmptyString
  else re_sub_empty illegal_chars text.

(** ** Fetching *)

Definition convert_struct_time_to_datetime (pub_struct : option struct_time)
  : M (result Z) :=
  match pub_struct with
  | None => now <- datetime_now ;; ret (Returned now)
  | Some (Returned t) => ret (Returned t)
  | Some (Raised e) => ret (Raised e)
  end.

(** [entry.get('published_parsed', entry.get('updated_parsed'))] *)
Definition fetched_date (entry : FeedEntry.t) : option struct_time :=
  dict_get (FeedEntry.published_parsed entry)
    (dict_get (FeedEntry.updated_parsed entry) None).

Definition fetched_entry (journal_title : string) (entry : FeedEntry.t)
  : M (result Entry.t) :=
  let pub_struct := fetched_date entry in
  converted <- convert_struct_time_to_datetime pub_struct ;;
  match converted with
  | Raised e => ret (Raised e)
  | Returned pub_date =>
      ret (Returned
             (Entry.mk
                (dict_get (FeedEntry.title entry) EmptyString)
                (dict_get (FeedEntry.link entry) EmptyString)
                pub_date
                (dict_get (FeedEntry.summary entry)
                   (dict_get (FeedEntry.description entry) EmptyString))
                journal_title
                (dict_get (FeedEntry.id entry)
                   (dict_get (FeedEntry.link entry) EmptyString))
                None))
  end.

(** The [for attempt in range(retries)] loop.  The [try] encloses the call
    of [feedparser.parse] and the loop over the entries: an exception of
    either, a request that fails or a date that does not convert, is
    printed and slept on, and the next attempt starts afresh. *)
Fixpoint parse_rss_attempts (rss_url : string) (attempts : nat)
  : M (list Entry.t) :=
  match attempts with
  | O => ret []
  | S remaining =>
      r <- feedparser_parse_url rss_url ;;
      match r with
      | Returned feed =>
          let journal_title :=
            dict_get (Parsed.feed_title feed) "Unknown Journal" in
          built <- try_each (fetched_entry journal_title) (Parsed.entries feed) ;;
          match built with
          | Returned entries => ret entries
          | Raised e =>
              print ("Error parsing " +:+ rss_url +:+ ": " +:+ e) ;;
              time_sleep 2 ;;
              parse_rss_attempts rss_url remaining
          end
      | Raised e =>
          print ("Error parsing " +:+ rss_url +:+ ": " +:+ e) ;;
          time_sleep 2 ;;
          parse_rss_attempts rss_url remaining
      end
  end.

Definition parse_rss (rss_url : string) : M (list Entry.t) :=
  print ("Fetching: " +:+ rss_url +:+ "...") ;;
  parse_rss_attempts rss_url 3.

(** ** The feed writer *)

(** [items.sort(key=lambda x: x['pub_date'], reverse=True)]: Python's sort
    is stable, also with [reverse=True]; an element is placed before the
    first element whose date is not later than its own. *)
Fixpoint insert_desc (x : Entry.t) (sorted : list Entry.t) : list Entry.t :=
  match sorted with
  | [] => [x]
  | y :: rest =>
      if Entry.pub_date y <=? Entry.pub_date x then x :: y :: rest
      else y :: insert_desc x rest
  end.

Definition sort_by_pub_date_desc (items : list Entry.t) : list Entry.t :=
  foldr insert_desc [] items.

(** The body of the loop that builds one [Item]. *)
Definition rss_item (item : Entry.t) : Item.t :=
  let title :=
    if negb (dict_get (Entry.is_old item) false)
    then "[" +:+ Entry.journal item +:+ "] " +:+ Entry.title item
    else Entry.title item in
  let clean_title := remove_illegal_xml_chars title in
  let clean_summary := remove_illegal_xml_chars (Entry.summary item) in
  let clean_journal := remove_illegal_xml_chars (Entry.journal item) in
  Item.mk clean_title (Entry.link item) clean_summary clean_journal
    (Entry.id item) (Entry.pub_date item).

(** [rss_items] at the end of the loop: sort, truncate, build. *)
Definition rss_items (items : list Entry.t) : list Item.t :=
  let items := sort_by_pub_date_desc items in
  let items := take MAX_ITEMS items in
  rss_item <$> items.

Definition build_feed (items : list Entry.t) (now : Z) : Feed.t :=
  Feed.mk "Medical Image Segmentation Papers"
    "https://github.com/Nafsae/paper-feed"
    "Aggregated medical image segmentation research papers"
    "en-US" now (rss_items items).

(** The state of the loops of [main]. *)
Record Acc : Type := mkAcc {
  all_entries : list Entry.t;
  seen_ids : gset string;
  new_count : nat
}.

Section Libraries.

(** [feedparser.parse] on the text of a local document, and [Feed.rss]. *)
Variable parse_document : string -> result Parsed.t.
Variable feed_rss : Feed.t -> string.

Definition feedparser_parse_file (path : string) : M (result Parsed.t) :=
  fun w => (parse_document (default EmptyString (files w !! path)), w).

(** ** The reader of the previous output *)

(** [entry.get('published_parsed')] *)
Definition existing_date (entry : FeedEntry.t) : option struct_time :=
  dict_get (FeedEntry.published_parsed entry) None.

Definition existing_entry (entry : FeedEntry.t) : M (result Entry.t) :=
  let pub_struct := existing_date entry in
  converted <- convert_struct_time_to_datetime pub_struct ;;
  match converted with
  | Raised e => ret (Raised e)
  | Returned pub_date =>
      ret (Returned
             (Entry.mk
                (dict_get (FeedEntry.title entry) EmptyString)
                (dict_get (FeedEntry.link entry) EmptyString)
                pub_date
                (dict_get (FeedEntry.summary entry) EmptyString)
                (dict_get (FeedEntry.author entry) EmptyString)
                (dict_get (FeedEntry.id entry)
                   (dict_get (FeedEntry.link entry) EmptyString))
                (Some true)))
  end.

(** The [try] encloses the call of [feedparser.parse], the test of [bozo]
    and the loop over the entries. *)
Definition get_existing_items : M (list Entry.t) :=
  present <- path_exists OUTPUT_FILE ;;
  if negb present then ret []
  else
    print ("Loading existing items from " +:+ OUTPUT_FILE +:+ "...") ;;
    r <- feedparser_parse_file OUTPUT_FILE ;;
    match r with
    | Returned feed =>
        (if bool_decide (Parsed.bozo feed = Some 1)
         then print "Warning: Existing XML file might be corrupted. Ignoring old items."
         else ret tt) ;;
        built <- try_each existing_entry (Parsed.entries feed) ;;
        match built with
        | Returned entries => ret entries
        | Raised e =>
            print ("Error reading existing file: " +:+ e) ;;
            ret []
        end
    | Raised e =>
        print ("Error reading existing file: " +:+ e) ;;
        ret []
    end.

Definition generate_rss_xml (items : list Entry.t) : M unit :=
  let built := rss_items items in
  now <- datetime_now ;;
  let feed := build_feed items now in
  write_text OUTPUT_FILE (feed_rss feed) ;;
  print ("Successfully generated " +:+ OUTPUT_FILE +:+ " with "
         +:+ Py.str_nat (length built) +:+ " items.").

(** ** The aggregator *)

(** [for entry in fetched_entries] *)
Fixpoint entries_loop (queries : list string) (fetched_entries : list Entry.t)
    (acc : Acc) : M Acc :=
  match fetched_entries with
  | [] => ret acc
  | entry :: rest =>
      if bool_decide (Entry.id entry ∈ seen_ids acc)
      then entries_loop queries rest acc
      else if match_entry entry queries then
        print ("Match found: " +:+ Py.slice_to 50 (Entry.title entry) +:+ "...") ;;
        entries_loop queries rest
          (mkAcc (all_entries acc ++ [entry])
                 ({[Entry.id entry]} ∪ seen_ids acc)
                 (S (new_count acc)))
      else entries_loop queries rest acc
  end.

(** [for url in rss_urls] *)
Fixpoint urls_loop (queries rss_urls : list string) (acc : Acc) : M Acc :=
  match rss_urls with
  | [] => ret acc
  | url :: rest =>
      fetched_entries <- parse_rss url ;;
      acc' <- entries_loop queries fetched_entries acc ;;
      urls_loop queries rest acc'
  end.

(** [main] up to the call of [generate_rss_xml]: [None] when the
    configuration is missing and [main] returns early, else the final
    [all_entries]. *)
Definition main_aggregate : M (option (list Entry.t)) :=
  rss_urls <- load_config "journals.dat" (Some "RSS_JOURNALS") ;;
  queries <- load_config "keywords.dat" (Some "RSS_KEYWORDS") ;;
  if bool_decide (rss_urls = []) || bool_decide (queries = []) then
    print "Error: Configuration files are empty or missing." ;;
    ret None
  else
    existing_entries <- get_existing_items ;;
    let seen := list_to_set (Entry.id <$> existing_entries) in
    let copy := existing_entries in
    print "Starting RSS fetch from remote..." ;;
    acc <- urls_loop queries rss_urls (mkAcc copy seen 0) ;;
    print ("Added " +:+ Py.str_nat (new_count acc) +:+ " new entries.") ;;
    ret (Some (all_entries acc)).

Definition main : M unit :=
  aggregated <- main_aggregate ;;
  match aggregated with
  | None => ret tt
  | Some entries => generate_rss_xml entries
  end.

End Libraries.

(** ** The query language, as the specification words it *)

(** The AND-clause of a query: its segment before the first [' NOT ']. *)
Definition and_clause (query : string) : string :=
  hd EmptyString (Py.split " NOT " query).

(** The AND-terms: the AND-clause split on [' AND '], each piece trimmed and
    lowercased. *)
Definition and_terms (query : string) : list string :=
  strip_lower <$> Py.split " AND " (and_clause query).

(** The excluded terms: every segment after a [' NOT '], trimmed and
    lowercased. *)
Definition excluded_terms (query : string) : list string :=
  strip_lower <$> tail (Py.split " NOT " query).

(** The text a query is matched against. *)
Definition searched_text (entry : Entry.t) : string :=
  Py.lower (Entry.title entry +:+ " " +:+ Entry.summary entry).

Definition query_matches (text query : string) : Prop :=
  (forall t, t ∈ and_terms query -> Substring t text)
  /\ (forall t, t ∈ excluded_terms query -> ~ Substring t text).

(** ** The configuration source, as the specification words it *)

(** The named environment variable is set and non-empty. *)
Definition env_configured (env_var_name : option string) (w : World) : Prop :=
  exists name content,
    env_var_name = Some name /\ name <> EmptyString
    /\ environ w !! name = Some content /\ content <> EmptyString.

(** The lines of a local file, as read in text mode. *)
Definition file_lines (filename : string) (w : World) : list string :=
  Py.iter_lines (Py.universal_newlines (default EmptyString (files w !! filename))).

(** A world with the given environment and files, no network and a clock
    stopped at 0. *)
Definition quiet_world (env fs : gmap string string) : World :=
  mkWorld env fs (fun _ _ => Raised "unreachable") [] (fun _ => 0) 0 0 [].

(** A text of several lines: the lines joined with ['\n']. *)
Definition text_of_lines (lines : list string) : string :=
  Py.join (String Py.LF EmptyString) lines.

(** ** The output, as the specification words it *)

(** The characters of the ASCII ranges 0x00-0x08, 0x0B, 0x0C, 0x0E-0x1F. *)
Definition is_illegal (c : ascii) : bool :=
  let n := N_of_ascii c in
  ((n <=? 8) || (n =? 11) || (n =? 12) || (14 <=? n) && (n <=? 31))%N.

(** No character of [s] is illegal. *)
Definition clean (s : string) : Prop :=
  Forall (fun c => is_illegal c = false) (String.list_ascii_of_string s).

(** [a] is at least as recent as [b]. *)
Definition not_older (a b : Entry.t) : Prop :=
  Entry.pub_date b <= Entry.pub_date a.

(** The title before sanitization. *)
Definition raw_title (item : Entry.t) : string :=
  match Entry.is_old item with
  | Some true => Entry.title item
  | _ => "[" +:+ Entry.journal item +:+ "] " +:+ Entry.title item
  end.


(** ** Frames: what a computation leaves untouched *)

(** [w'] differs from [w] at most in what was printed. *)
Definition only_printed (w w' : World) : Prop :=
  environ w' = environ w /\ files w' = files w /\ remote w' = remote w
  /\ requests w' = requests w /\ clock w' = clock w
  /\ clock_reads w' = clock_reads w /\ slept w' = slept w.

(** [w'] differs from [w] at most in what was printed and in the number of
    clock readings. *)
Definition only_printed_and_timed (w w' : World) : Prop :=
  environ w' = environ w /\ files w' = files w /\ remote w' = remote w
  /\ requests w' = requests w /\ clock w' = clock w /\ slept w' = slept w.

(** ** The aggregator without its printing *)

(** What [entries_loop] computes, the line it prints for each match left
    out. *)
Fixpoint accept (queries : list string) (fetched_entries : list Entry.t)
    (acc : Acc) : Acc :=
  match fetched_entries with
  | [] => acc
  | entry :: rest =>
      if bool_decide (Entry.id entry ∈ seen_ids acc)
      then accept queries rest acc
      else if match_entry entry queries then
        accept queries rest
          (mkAcc (all_entries acc ++ [entry])
                 ({[Entry.id entry]} ∪ seen_ids acc)
                 (S (new_count acc)))
      else accept queries rest acc
  end.

(** The state [main] starts its loops in. *)
Definition initial_acc (existing_entries : list Entry.t) : Acc :=
  mkAcc existing_entries (list_to_set (Entry.id <$> existing_entries)) 0.

(** The final [all_entries] of [main], given the old entries and the
    entries fetched from all the journals, in order. *)
Definition aggregate (queries : list string) (existing_entries : list Entry.t)
    (fetched_entries : list Entry.t) : list Entry.t :=
  all_entries (accept queries fetched_entries (initial_acc existing_entries)).

(** The date found for an entry can be made a datetime: it is absent
    (the current time is taken) or a time tuple in range. *)
Definition date_converts (pub_struct : option struct_time) : bool :=
  match pub_struct with
  | Some (Raised _) => false
  | _ => true
  end.

(** ['id': entry.get('id', entry.get('link', ''))] *)
Definition entry_id (entry : FeedEntry.t) : string :=
  dict_get (FeedEntry.id entry) (dict_get (FeedEntry.link entry) EmptyString).

(** ** Reading back what was written *)

(** An item of the output as a faithful parser hands it back: each element
    under the key [feedparser] gives it, with the value that was written
    (guid as [id], description as [summary], pubDate as
    [published_parsed]). *)
Definition as_parsed (item : Item.t) : FeedEntry.t :=
  FeedEntry.mk (Some (Item.title item)) (Some (Item.link item))
    (Some (Item.description item)) None (Some (Item.guid item))
    (Some (Item.author item)) (Some (Some (Returned (Item.pubDate item)))) None.

(** The old entry that [get_existing_items] makes of such an item. *)
Definition reread (item : Item.t) : Entry.t :=
  Entry.mk (Item.title item) (Item.link item) (Item.pubDate item)
    (Item.description item) (Item.author item) (Item.guid item) (Some true).


(** The ids of the entries of the previous output, as
    [get_existing_items] reads them from the files. *)
Definition prior_ids (parse_document : string -> result Parsed.t)
    (fs : gmap string string) : list string :=
  if bool_decide (is_Some (fs !! OUTPUT_FILE)) then
    match parse_document (default EmptyString (fs !! OUTPUT_FILE)) with
    | Returned feed =>
        if forallb (fun entry => date_converts (existing_date entry))
             (Parsed.entries feed)
        then entry_id <$> Parsed.entries feed else []
    | Raised _ => []
    end
  else [].

(** The invariant of the loops of [main]: the seen ids are the ids of the
    entries collected so far. *)
Definition seen_all (acc : Acc) : Prop :=
  forall x, x ∈ seen_ids acc <-> x ∈ Entry.id <$> all_entries acc.

(** ** Sample data *)

(** A parsed entry with all its fields. *)
Definition parsed_entry (title summary id author : string) (date : Z)
  : FeedEntry.t :=
  FeedEntry.mk (Some title) (Some ("http://example.org/" +:+ id)) (Some summary)
    None (Some id) (Some author) (Some (Some (Returned date))) None.

(** A world configured by its environment with one journal and the query
    ["tumor"], in which the previous output exists and the journal serves
    the given feed. *)
Definition sample_world (served : Parsed.t) : World :=
  mkWorld {[ "RSS_JOURNALS" := "http://example.org/feed";
             "RSS_KEYWORDS" := "tumor" ]}
          {[ OUTPUT_FILE := "<rss>previous output</rss>" ]}
          (fun _ _ => Returned served) [] (fun _ => 1700000000) 0 0 [].






(** [w'] has the environment, the files, the network and the clock of [w];
    requests, clock readings, sleeps and printed lines may have been
    added. *)
Definition same_store (w w' : World) : Prop :=
  environ w' = environ w /\ files w' = files w /\ remote w' = remote w
  /\ clock w' = clock w.

(** The world after one failed attempt of [parse_rss]: the request is made,
    the error is printed, two seconds are slept. *)
Definition after_failed_attempt (rss_url e : string) (w : World) : World :=
  mkWorld (environ w) (files w) (remote w) (requests w ++ [rss_url]) (clock w)
    (clock_reads w) (slept w + 2)
    (stdout w ++ ["Error parsing " +:+ rss_url +:+ ": " +:+ e]).

(** The requests that [main] makes for its journals: each url in turn,
    [k] times for the [k] attempts it took. *)
Definition requests_for (attempts : list nat) (rss_urls : list string)
  : list string :=
  concat (zip_with replicate attempts rss_urls).

(** The second half of [load_config]: reading the local file. *)
Definition load_config_file (filename : string) : M (list string) :=
  present <- path_exists filename ;;
  if present then
    print ("Loading config from local file: " +:+ filename) ;;
    content <- read_text filename ;;
    ret (Py.strip <$>
           List.filter
             (fun line => Py.truthy (Py.strip line)
                          && negb (Py.startswith "#" line))
             (Py.iter_lines content))
  else ret [].

(** * Theorems *)

(** ** Strings *)

Lemma startswith_spec (p s : string) :
  Py.startswith p s = true <-> exists r, s = p +:+ r.
Proof.
  revert s. induction p as [|a p IH]; intros s; simpl.
  - split; [intros _; by exists s | done].
  - destruct s as [|b s]; simpl.
    + split; [done | intros [r Hr]; discriminate].
    + rewrite andb_true_iff, Ascii.eqb_eq, IH. split.
      * intros [-> [r ->]]. by exists r.
      * intros [r Hr]. injection Hr as -> ->. eauto.
Qed.

Lemma contains_spec (x s : string) :
  Py.contains x s = true <-> Substring x s.
Proof.
  split.
  - induction s as [|c s IH]; simpl; rewrite orb_true_iff.
    + intros [H|H]; [|done].
      apply startswith_spec in H as [r ->]. by exists EmptyString, r.
    + intros [H|H].
      * apply startswith_spec in H as [r Hr]. exists EmptyString, r. by rewrite Hr.
      * destruct (IH H) as (l & r & ->). by exists (String c l), r.
  - intros (l & r & ->). induction l as [|c l IH].
    + assert (Py.startswith x (x +:+ r) = true) as H
        by (apply startswith_spec; eauto).
      simpl. destruct (x +:+ r); simpl in *; by rewrite H.
    + simpl. rewrite IH. apply orb_true_r.
Qed.

Lemma contains_empty (s : string) : Py.contains EmptyString s = true.
Proof. by destruct s. Qed.

(** ** The query matcher *)

Lemma and_loop_spec (keywords : list string) (text : string) :
  and_loop keywords text = true <-> forall k, k ∈ keywords -> Substring k text.
Proof.
  induction keywords as [|k ks IH]; simpl.
  - split; [intros _ k' H; by apply elem_of_nil in H | done].
  - destruct (Py.contains k text) eqn:Hk; simpl.
    + rewrite IH. split.
      * intros H k' [->|Hin]%elem_of_cons; [by apply contains_spec | auto].
      * intros H k' Hin. apply H. by right.
    + split; [done|]. intros H.
      assert (Py.contains k text = true) as Hk'
        by (apply contains_spec, H; by left).
      congruence.
Qed.

Lemma not_loop_spec (keywords : list string) (text : string) :
  not_loop keywords text = false <-> forall k, k ∈ keywords -> ~ Substring k text.
Proof.
  induction keywords as [|k ks IH]; simpl.
  - split; [intros _ k' H; by apply elem_of_nil in H | done].
  - destruct (Py.contains k text) eqn:Hk.
    + split; [done|]. intros H. exfalso. apply (H k); [by left|].
      by apply contains_spec.
    + rewrite IH. split.
      * intros H k' [->|Hin]%elem_of_cons; [|auto].
        rewrite <- contains_spec. congruence.
      * intros H k' Hin. apply H. by right.
Qed.

Lemma exclude_keywords_tail (not_parts : list string) :
  (if (1 <? length not_parts)%nat then strip_lower <$> drop 1 not_parts else [])
  = strip_lower <$> tail not_parts.
Proof. by destruct not_parts as [|? [|? ?]]. Qed.

Lemma query_loop_spec (text : string) (queries : list string) :
  query_loop text queries = true
  <-> exists query, query ∈ queries /\ query_matches text query.
Proof.
  induction queries as [|q qs IH].
  - simpl. split; [done | intros (q & H & _); by apply elem_of_nil in H].
  - cbn [query_loop]. rewrite exclude_keywords_tail.
    fold (and_clause q). fold (and_terms q). fold (excluded_terms q).
    destruct (and_loop (and_terms q) text) eqn:Hand; cbn [negb andb].
    + destruct (not_loop (excluded_terms q) text) eqn:Hnot; cbn [negb].
      * rewrite IH. split.
        -- intros (q' & Hin & Hm). exists q'. split; [by right | done].
        -- intros (q' & [->|Hin]%elem_of_cons & Hm); [|eauto].
           destruct Hm as [_ Hm]. apply not_loop_spec in Hm. congruence.
      * split; [|done]. intros _. exists q. split; [by left|].
        split; [by apply and_loop_spec | by apply not_loop_spec].
    + rewrite IH. split.
      * intros (q' & Hin & Hm). exists q'. split; [by right | done].
      * intros (q' & [->|Hin]%elem_of_cons & Hm); [|eauto].
        destruct Hm as [Hm _]. apply and_loop_spec in Hm. congruence.
Qed.

Lemma match_entry_spec (entry : Entry.t) (queries : list string) :
  match_entry entry queries = true
  <-> exists query, query ∈ queries /\ query_matches (searched_text entry) query.
Proof. apply query_loop_spec. Qed.

(** C1. [match_entry] returns true exactly when some query of the list
    matches: over the lowercased "title summary" text, every AND-term of
    the query is a substring and no excluded term is. *)
Theorem match_entry_correct (entry : Entry.t) (queries : list string) :
  match_entry entry queries = true
  <-> exists query,
        query ∈ queries
        /\ (forall t, t ∈ and_terms query -> Substring t (searched_text entry))
        /\ (forall t, t ∈ excluded_terms query -> ~ Substring t (searched_text entry)).
Proof. apply match_entry_spec. Qed.

(** C10 (as amended). A query of which every AND-term trims to the empty
    string and no excluded term occurs in the text -- the empty query, a
    blank query, [" AND "] -- makes every entry match. *)
Theorem blank_query_matches (entry : Entry.t) (queries : list string)
    (query : string) :
  query ∈ queries ->
  (forall t, t ∈ and_terms query -> t = EmptyString) ->
  (forall t, t ∈ excluded_terms query -> ~ Substring t (searched_text entry)) ->
  match_entry entry queries = true.
Proof.
  intros Hin Hand Hnot. apply match_entry_spec. exists query.
  split; [done|]. split; [|done].
  intros t Ht. rewrite (Hand t Ht). apply contains_spec, contains_empty.
Qed.

Lemma blank_query_matches_witness :
  let entry := Entry.mk "Foo" "http://x/1" 0 "bar" "Nature" "1" None in
  EmptyString ∈ [EmptyString]
  /\ (forall t, t ∈ and_terms EmptyString -> t = EmptyString)
  /\ (forall t, t ∈ excluded_terms EmptyString -> ~ Substring t (searched_text entry))
  /\ match_entry entry [EmptyString] = true.
Proof.
  intros entry.
  assert (forall t, t ∈ and_terms EmptyString -> t = EmptyString) as Hand.
  { intros t Ht. vm_compute in Ht. by apply list_elem_of_singleton in Ht. }
  assert (forall t, t ∈ excluded_terms EmptyString
                    -> ~ Substring t (searched_text entry)) as Hnot.
  { intros t Ht. vm_compute in Ht. by apply elem_of_nil in Ht. }
  assert (EmptyString ∈ [EmptyString]) as Hin by apply list_elem_of_here.
  split; [exact Hin|]. split; [exact Hand|]. split; [exact Hnot|].
  exact (blank_query_matches entry [EmptyString] EmptyString Hin Hand Hnot).
Defined.

(** C10 as stated fails: one AND-term that trims to the empty string is
    not enough, the other terms of the clause are still required. *)
Lemma empty_and_term_not_sufficient :
  ~ (forall (entry : Entry.t) (queries : list string) (query : string),
        query ∈ queries ->
        (exists piece, piece ∈ Py.split " AND " (and_clause query)
                       /\ Py.strip piece = EmptyString) ->
        match_entry entry queries = true).
Proof.
  intros H.
  specialize (H (Entry.mk "bar" "" 0 "" "" "" None) ["foo AND "] "foo AND ").
  assert (match_entry (Entry.mk "bar" "" 0 "" "" "" None) ["foo AND "] = false)
    as Hfalse by reflexivity.
  rewrite H in Hfalse; [discriminate | apply list_elem_of_here |].
  exists EmptyString. split; [|reflexivity].
  change (Py.split " AND " (and_clause "foo AND ")) with ["foo"; EmptyString].
  apply list_elem_of_further, list_elem_of_here.
Qed.

(** ** Trimming *)

Lemma lstrip_idem (s : string) : Py.lstrip (Py.lstrip s) = Py.lstrip s.
Proof.
  induction s as [|c s IH]; [done|]. simpl.
  destruct (Py.isspace c) eqn:Hc; [done|]. simpl. by rewrite Hc.
Qed.

Lemma rstrip_idem (s : string) : Py.rstrip (Py.rstrip s) = Py.rstrip s.
Proof.
  induction s as [|c s IH]; [done|]. simpl.
  destruct (Py.rstrip s) as [|d r] eqn:Hr.
  - destruct (Py.isspace c) eqn:Hc; [done|]. simpl. by rewrite Hc.
  - change (Py.rstrip (String c (String d r)))
      with (match Py.rstrip (String d r) with
            | EmptyString =>
                if Py.isspace c then EmptyString else String c EmptyString
            | r' => String c r'
            end).
    by rewrite IH.
Qed.

Lemma lstrip_rstrip (s : string) :
  Py.lstrip s = s -> Py.lstrip (Py.rstrip s) = Py.rstrip s.
Proof.
  destruct s as [|c s]; [done|]. simpl.
  destruct (Py.isspace c) eqn:Hc.
  - intros H. exfalso.
    assert (forall t, String.length (Py.lstrip t) <= String.length t)%nat as Hlen.
    { induction t as [|a t IHt]; simpl; [lia|]. destruct (Py.isspace a); simpl; lia. }
    specialize (Hlen s). rewrite H in Hlen. simpl in Hlen. lia.
  - intros _. destruct (Py.rstrip s); simpl; by rewrite Hc.
Qed.

Lemma strip_idem (s : string) : Py.strip (Py.strip s) = Py.strip s.
Proof.
  unfold Py.strip.
  rewrite (lstrip_rstrip (Py.lstrip s)) by apply lstrip_idem.
  apply rstrip_idem.
Qed.

Lemma truthy_nonempty (s : string) : Py.truthy s = true <-> s <> EmptyString.
Proof. destruct s; simpl; split; congruence. Qed.

(** ** Splitting *)

Lemma split_from_nonempty (sep : string) (k : nat) (s : string) :
  Py.split_from sep k s <> [].
Proof.
  revert k. induction s as [|c s IH]; intros k; simpl; [done|].
  destruct k; [|apply IH].
  destruct (Py.startswith sep (String c s)); [done|].
  by destruct (Py.split_from sep 0 s).
Qed.

Lemma join_cons_char (sep : string) (c : ascii) (piece : string)
    (rest : list string) :
  Py.join sep (String c piece :: rest) = String c (Py.join sep (piece :: rest)).
Proof. by destruct rest. Qed.

Lemma join_cons (sep x y : string) (rest : list string) :
  Py.join sep (x :: y :: rest) = x +:+ sep +:+ Py.join sep (y :: rest).
Proof. reflexivity. Qed.

Lemma append_nil (r : string) : EmptyString +:+ r = r.
Proof. reflexivity. Qed.

Lemma append_cons (a : ascii) (p r : string) :
  String a p +:+ r = String a (p +:+ r).
Proof. reflexivity. Qed.

Lemma substring_full (s : string) : String.substring 0 (String.length s) s = s.
Proof. induction s as [|c s IH]; simpl; [done|]. by rewrite IH. Qed.

Lemma drop_append (p r : string) :
  String.substring (String.length p) (String.length (p +:+ r) - String.length p)
    (p +:+ r) = r.
Proof.
  induction p as [|a p IH].
  - rewrite append_nil. simpl. rewrite Nat.sub_0_r. apply substring_full.
  - rewrite append_cons. simpl. apply IH.
Qed.

(** What [split] computes: joining the pieces with the separator gives the
    string back (after the [k] characters that were to be skipped). *)
Lemma join_split_from (sep : string) (k : nat) (s : string) :
  sep <> EmptyString ->
  Py.join sep (Py.split_from sep k s)
  = String.substring k (String.length s - k) s.
Proof.
  intros Hsep. revert k. induction s as [|c s IH]; intros k.
  - by destruct k.
  - cbn [Py.split_from]. destruct k as [|k].
    + destruct (Py.startswith sep (String c s)) eqn:Hp.
      * apply startswith_spec in Hp as [r Hr].
        destruct sep as [|a sep']; [done|].
        rewrite append_cons in Hr. injection Hr as <- ->.
        cbn [String.length]. rewrite Nat.sub_succ, Nat.sub_0_r.
        pose proof (split_from_nonempty (String c sep') (String.length sep')
                      (sep' +:+ r)) as Hne.
        pose proof (IH (String.length sep')) as IH'.
        destruct (Py.split_from (String c sep') (String.length sep') (sep' +:+ r))
          as [|x xs]; [done|].
        rewrite join_cons, IH', drop_append, append_nil, append_cons.
        simpl. by rewrite substring_full.
      * pose proof (split_from_nonempty sep 0 s) as Hne.
        pose proof (IH 0%nat) as IH'.
        destruct (Py.split_from sep 0 s) as [|x xs]; [done|].
        rewrite join_cons_char, IH'. simpl. by rewrite !Nat.sub_0_r.
    + rewrite IH. reflexivity.
Qed.

Lemma join_split (sep s : string) :
  sep <> EmptyString -> Py.join sep (Py.split sep s) = s.
Proof.
  intros Hsep. unfold Py.split. rewrite join_split_from by done.
  rewrite Nat.sub_0_r. apply substring_full.
Qed.

(** ** The configuration loader *)

Lemma elem_of_stripped_nonblank (lines : list string) (x : string) :
  x ∈ stripped_nonblank lines ->
  x <> EmptyString /\ Py.strip x = x /\ exists line, line ∈ lines /\ x = Py.strip line.
Proof.
  unfold stripped_nonblank. intros (line & -> & Hin)%list_elem_of_fmap.
  apply list_elem_of_In, filter_In in Hin as [Hin Hne].
  split; [by apply truthy_nonempty|]. split; [apply strip_idem|].
  exists line. split; [by apply list_elem_of_In | done].
Qed.

(** C6 (as amended). Every element returned by [load_config] is non-empty
    and equal to itself stripped; when the list is read from the local file
    (the environment variable is unset or empty), every element is the
    stripped form of a line of the file that does not begin with ['#']. *)
Theorem load_config_lines (filename : string) (env_var_name : option string)
    (w : World) (x : string) :
  x ∈ (load_config filename env_var_name w).1 ->
  x <> EmptyString
  /\ Py.strip x = x
  /\ (~ env_configured env_var_name w ->
      exists line, line ∈ file_lines filename w
                   /\ Py.startswith "#" line = false /\ x = Py.strip line).
Proof.
  assert (forall lines,
             x ∈ Py.strip <$>
                  List.filter (fun line => Py.truthy (Py.strip line)
                                           && negb (Py.startswith "#" line)) lines ->
             x <> EmptyString /\ Py.strip x = x
             /\ exists line, line ∈ lines /\ Py.startswith "#" line = false
                             /\ x = Py.strip line) as Hfile.
  { intros lines (line & -> & Hin)%list_elem_of_fmap.
    apply list_elem_of_In, filter_In in Hin as [Hin [Hne Hc]%andb_true_iff].
    split; [by apply truthy_nonempty|]. split; [apply strip_idem|].
    exists line. split; [by apply list_elem_of_In|].
    split; [by destruct (Py.startswith "#" line) | done]. }
  assert (forall w',
             files w' = files w ->
             x ∈ ((present <- path_exists filename ;;
                   if present then
                     print ("Loading config from local file: " +:+ filename) ;;
                     content <- read_text filename ;;
                     ret (Py.strip <$>
                            List.filter
                              (fun line => Py.truthy (Py.strip line)
                                           && negb (Py.startswith "#" line))
                              (Py.iter_lines content))
                   else ret []) w').1 ->
             x <> EmptyString /\ Py.strip x = x
             /\ exists line, line ∈ file_lines filename w
                             /\ Py.startswith "#" line = false
                             /\ x = Py.strip line) as Hlocal.
  { intros w' Hw'. unfold bind, path_exists, print, read_text, ret. simpl.
    destruct (bool_decide (is_Some (files w' !! filename))); simpl.
    - rewrite Hw'. apply Hfile.
    - intros H. by apply elem_of_nil in H. }
  unfold load_config.
  destruct env_var_name as [name|].
  - destruct (Py.truthy name) eqn:Hname.
    + unfold bind at 1 2. unfold environ_get.
      destruct (environ w !! name) as [content|] eqn:Hget.
      * destruct (Py.truthy content) eqn:Hcontent.
        -- unfold ret at 1. unfold bind, print, ret. simpl.
           intros Hx.
           assert (x <> EmptyString /\ Py.strip x = x) as [H1 H2].
           { destruct (Py.contains (String Py.LF "") content); simpl in Hx;
               apply elem_of_stripped_nonblank in Hx; tauto. }
           split; [done|]. split; [done|]. intros Hno. exfalso. apply Hno.
           exists name, content. by rewrite <- !truthy_nonempty.
        -- unfold ret at 1. intros Hx. apply (Hlocal w eq_refl) in Hx.
           destruct Hx as (? & ? & ?). auto.
      * unfold ret at 1. intros Hx. apply (Hlocal w eq_refl) in Hx.
        destruct Hx as (? & ? & ?). auto.
    + unfold bind at 1. unfold ret at 1. intros Hx.
      apply (Hlocal w eq_refl) in Hx. destruct Hx as (? & ? & ?). auto.
  - unfold bind at 1. unfold ret at 1. intros Hx.
    apply (Hlocal w eq_refl) in Hx. destruct Hx as (? & ? & ?). auto.
Qed.

Lemma load_config_lines_witness :
  let w := quiet_world ∅
             {[ "keywords.dat" :=
                  text_of_lines ["brain AND tumor"; "# a comment"; "  "; " lesion "] ]} in
  "lesion" ∈ (load_config "keywords.dat" (Some "RSS_KEYWORDS") w).1
  /\ "lesion" <> EmptyString
  /\ Py.strip "lesion" = "lesion"
  /\ (~ env_configured (Some "RSS_KEYWORDS") w ->
      exists line, line ∈ file_lines "keywords.dat" w
                   /\ Py.startswith "#" line = false /\ "lesion" = Py.strip line).
Proof.
  intros w.
  assert ("lesion" ∈ (load_config "keywords.dat" (Some "RSS_KEYWORDS") w).1) as H.
  { vm_compute. apply list_elem_of_further, list_elem_of_here. }
  split; [exact H|].
  exact (load_config_lines "keywords.dat" (Some "RSS_KEYWORDS") w "lesion" H).
Defined.

(** C6 as stated fails: values taken from the environment variable are not
    filtered for comments. *)
Lemma env_config_keeps_comment_lines :
  ~ (forall (filename : string) (env_var_name : option string) (w : World)
            (x : string),
        x ∈ (load_config filename env_var_name w).1 ->
        x <> EmptyString /\ Py.strip x = x /\ Py.startswith "#" x = false).
Proof.
  intros H.
  specialize (H "keywords.dat" (Some "RSS_KEYWORDS")
                (quiet_world {[ "RSS_KEYWORDS" := "#x;tumor" ]} ∅) "#x").
  assert (Py.startswith "#" "#x" = true) as Hc by reflexivity.
  destruct H as (_ & _ & H); [|congruence].
  vm_compute. apply list_elem_of_here.
Qed.

Example load_config_env :
  (load_config "keywords.dat" (Some "RSS_KEYWORDS")
     (quiet_world {[ "RSS_KEYWORDS" := "#x; tumor NOT benign ;;" ]} ∅)).1
  = ["#x"; "tumor NOT benign"].
Proof. vm_compute. reflexivity. Qed.

Example load_config_file_indented_comment :
  (load_config "keywords.dat" (Some "RSS_KEYWORDS")
     (quiet_world ∅
        {[ "keywords.dat" := text_of_lines ["#skipped"; "  # kept"; "tumor"] ]})).1
  = ["# kept"; "tumor"].
Proof. vm_compute. reflexivity. Qed.

Example load_config_missing :
  (load_config "keywords.dat" (Some "RSS_KEYWORDS") (quiet_world ∅ ∅)).1 = [].
Proof. vm_compute. reflexivity. Qed.

(** ** Text cleanup *)

Lemma class_matches_illegal (c : ascii) :
  class_matches illegal_chars c = is_illegal c.
Proof.
  unfold class_matches, illegal_chars, is_illegal. cbn [existsb fst snd].
  generalize (N_of_ascii c). intros n.
  repeat match goal with
         | |- context [(?a <=? ?b)%N] => destruct (N.leb_spec a b)
         | |- context [(?a =? ?b)%N] => destruct (N.eqb_spec a b)
         end; simpl; try reflexivity; lia.
Qed.

Lemma remove_illegal_xml_chars_eq (text : string) :
  remove_illegal_xml_chars text = re_sub_empty illegal_chars text.
Proof. by destruct text. Qed.

Lemma remove_illegal_xml_chars_filter (text : string) :
  String.list_ascii_of_string (remove_illegal_xml_chars text)
  = List.filter (fun c => negb (is_illegal c)) (String.list_ascii_of_string text).
Proof.
  rewrite remove_illegal_xml_chars_eq.
  induction text as [|c text IH]; [done|].
  cbn [re_sub_empty String.list_ascii_of_string List.filter].
  rewrite class_matches_illegal.
  destruct (is_illegal c); cbn [negb String.list_ascii_of_string]; by rewrite IH.
Qed.

Lemma remove_illegal_xml_chars_clean (text : string) :
  clean (remove_illegal_xml_chars text).
Proof.
  unfold clean. rewrite remove_illegal_xml_chars_filter.
  apply List.Forall_forall. intros c [_ Hc]%filter_In.
  by destruct (is_illegal c).
Qed.

Lemma remove_illegal_xml_chars_of_clean (text : string) :
  clean text -> remove_illegal_xml_chars text = text.
Proof.
  rewrite remove_illegal_xml_chars_eq. unfold clean.
  induction text as [|c text IH]; [done|].
  cbn [re_sub_empty String.list_ascii_of_string].
  intros [Hc Ht]%Forall_cons. rewrite class_matches_illegal, Hc. by rewrite IH.
Qed.

Lemma remove_illegal_xml_chars_idem (text : string) :
  remove_illegal_xml_chars (remove_illegal_xml_chars text)
  = remove_illegal_xml_chars text.
Proof.
  apply remove_illegal_xml_chars_of_clean, remove_illegal_xml_chars_clean.
Qed.

Lemma clean_forallb (s : string) :
  forallb (fun c => negb (is_illegal c)) (String.list_ascii_of_string s) = true ->
  clean s.
Proof.
  unfold clean. rewrite forallb_forall, List.Forall_forall.
  intros H c Hc. specialize (H c Hc). by destruct (is_illegal c).
Qed.


(** ** Titles *)

Lemma rss_item_title (item : Entry.t) :
  Item.title (rss_item item) = remove_illegal_xml_chars (raw_title item).
Proof.
  unfold rss_item, raw_title. simpl.
  by destruct (Entry.is_old item) as [[|]|].
Qed.

(** C7 (as amended). The output title is the sanitized form of
    ["[" + journal + "] " + title] when [is_old] is false or absent, and of
    the original title when [is_old] is true; it is that string itself when
    the string holds no illegal character. *)
Theorem output_title (item : Entry.t) :
  Item.title (rss_item item)
  = remove_illegal_xml_chars
      (match Entry.is_old item with
       | Some true => Entry.title item
       | _ => "[" +:+ Entry.journal item +:+ "] " +:+ Entry.title item
       end)
  /\ (clean (raw_title item) -> Item.title (rss_item item) = raw_title item).
Proof.
  split; [apply rss_item_title|].
  intros H. rewrite rss_item_title. by apply remove_illegal_xml_chars_of_clean.
Qed.

Lemma output_title_witness :
  let fresh := Entry.mk "Foo" "http://x/1" 0 "bar" "Nature" "1" None in
  let old := Entry.mk "[Nature] Foo" "http://x/1" 0 "bar" "Nature" "1" (Some true) in
  clean (raw_title fresh)
  /\ Item.title (rss_item fresh) = "[Nature] Foo"
  /\ clean (raw_title old)
  /\ Item.title (rss_item old) = "[Nature] Foo".
Proof.
  intros fresh old.
  assert (clean (raw_title fresh)) as Hf.
  { apply clean_forallb. vm_compute. reflexivity. }
  assert (clean (raw_title old)) as Ho.
  { apply clean_forallb. vm_compute. reflexivity. }
  split; [exact Hf|]. split; [exact (proj2 (output_title fresh) Hf)|].
  split; [exact Ho|]. exact (proj2 (output_title old) Ho).
Defined.

(** C7 as stated fails: the title goes through the sanitizer, so a control
    character of the original title is not in the output title. *)
Lemma output_title_is_sanitized :
  ~ (forall item : Entry.t,
        (dict_get (Entry.is_old item) false = false ->
         Item.title (rss_item item)
         = "[" +:+ Entry.journal item +:+ "] " +:+ Entry.title item)
        /\ (Entry.is_old item = Some true ->
            Item.title (rss_item item) = Entry.title item)).
Proof.
  intros H.
  destruct (H (Entry.mk (String "001" "Foo") "" 0 "" "Nature" "1" None))
    as [H1 _].
  specialize (H1 eq_refl). vm_compute in H1. discriminate.
Qed.

(** ** Sorting and truncation *)

Lemma insert_desc_perm (x : Entry.t) (l : list Entry.t) :
  insert_desc x l ≡ₚ x :: l.
Proof.
  induction l as [|y l IH]; simpl; [done|].
  destruct (Entry.pub_date y <=? Entry.pub_date x); [done|].
  rewrite IH. apply Permutation_swap.
Qed.

Lemma sort_by_pub_date_desc_perm (items : list Entry.t) :
  sort_by_pub_date_desc items ≡ₚ items.
Proof.
  induction items as [|x items IH]; simpl; [done|].
  by rewrite insert_desc_perm, IH.
Qed.

Lemma insert_desc_sorted (x : Entry.t) (l : list Entry.t) :
  StronglySorted not_older l -> StronglySorted not_older (insert_desc x l).
Proof.
  induction l as [|y l IH]; simpl; intros Hs.
  - repeat constructor.
  - apply StronglySorted_cons in Hs as [Hy Hl].
    destruct (Z.leb_spec (Entry.pub_date y) (Entry.pub_date x)) as [Hle|Hlt].
    + apply StronglySorted_cons. split; [|by apply StronglySorted_cons].
      constructor; [done|]. eapply Forall_impl; [exact Hy|].
      unfold not_older. intros z Hz. lia.
    + apply StronglySorted_cons. split; [|auto].
      rewrite insert_desc_perm. constructor; [|done].
      unfold not_older. lia.
Qed.

Lemma sort_by_pub_date_desc_sorted (items : list Entry.t) :
  StronglySorted not_older (sort_by_pub_date_desc items).
Proof.
  induction items as [|x items IH]; simpl; [constructor|].
  by apply insert_desc_sorted.
Qed.

(** The sort is stable: a list already in order is left as it is. *)
Lemma sort_by_pub_date_desc_sorted_id (items : list Entry.t) :
  StronglySorted not_older items -> sort_by_pub_date_desc items = items.
Proof.
  induction items as [|x items IH]; simpl; [done|].
  intros [Hx Hs]%StronglySorted_cons. rewrite IH by done.
  destruct items as [|y items]; [done|]. simpl.
  apply Forall_cons in Hx as [Hy _]. unfold not_older in Hy.
  by destruct (Z.leb_spec (Entry.pub_date y) (Entry.pub_date x)); [|lia].
Qed.


(** *** The sanitizer in the writer *)

(** C8. [remove_illegal_xml_chars] deletes exactly the characters of the
    ranges 0x00-0x08, 0x0B, 0x0C, 0x0E-0x1F and keeps every other character
    in place; it is applied to the title, the summary and the journal of
    every entry that is serialized: the title, the description and the
    author of every item of the output are its results on the title built
    for the entry, on the entry's summary and on its journal, and so hold
    no such character. *)
Theorem illegal_chars_removed :
  (forall text,
      String.list_ascii_of_string (remove_illegal_xml_chars text)
      = List.filter (fun c => negb (is_illegal c))
          (String.list_ascii_of_string text))
  /\ (forall items,
         Forall (fun out =>
                   (exists e,
                       e ∈ items
                       /\ Item.title out
                          = remove_illegal_xml_chars (raw_title e)
                       /\ Item.description out
                          = remove_illegal_xml_chars (Entry.summary e)
                       /\ Item.author out
                          = remove_illegal_xml_chars (Entry.journal e))
                   /\ clean (Item.title out)
                   /\ clean (Item.description out)
                   /\ clean (Item.author out))
           (rss_items items)).
Proof.
  split; [apply remove_illegal_xml_chars_filter|].
  intros items. unfold rss_items. apply Forall_fmap, Forall_forall.
  intros item Hitem. split.
  - exists item. split.
    + apply subseteq_take in Hitem.
      by rewrite (sort_by_pub_date_desc_perm items) in Hitem.
    + split; [apply rss_item_title | by split].
  - simpl. auto using remove_illegal_xml_chars_clean.
Qed.

(** *** The cap *)



(** ** Frames *)

Lemma only_printed_refl (w : World) : only_printed w w.
Proof. by repeat split. Qed.

Lemma only_printed_trans (w1 w2 w3 : World) :
  only_printed w1 w2 -> only_printed w2 w3 -> only_printed w1 w3.
Proof.
  unfold only_printed. intros (?&?&?&?&?&?&?) (?&?&?&?&?&?&?).
  repeat split; congruence.
Qed.

Lemma print_only_printed (line : string) (w : World) :
  only_printed w (print line w).2.
Proof. by repeat split. Qed.

Lemma load_config_only_printed (filename : string)
    (env_var_name : option string) (w : World) :
  only_printed w (load_config filename env_var_name w).2.
Proof.
  unfold load_config, bind, environ_get, path_exists, read_text, print, ret.
  destruct env_var_name as [name|]; [destruct (Py.truthy name)|];
    [destruct (environ w !! name) as [content|];
       [destruct (Py.truthy content);
          [destruct (Py.contains (String Py.LF "") content)|]|]|..];
    simpl;
    try destruct (bool_decide (is_Some (files w !! filename)));
    simpl; by repeat split.
Qed.

(** The lines loaded depend on the environment and the files only. *)
Lemma load_config_result (filename : string) (env_var_name : option string)
    (w w' : World) :
  environ w' = environ w -> files w' = files w ->
  (load_config filename env_var_name w').1
  = (load_config filename env_var_name w).1.
Proof.
  intros Henv Hfiles.
  unfold load_config, bind, environ_get, path_exists, read_text, print, ret.
  destruct env_var_name as [name|]; [destruct (Py.truthy name)|];
    simpl; rewrite ?Henv;
    [destruct (environ w !! name) as [content|];
       [destruct (Py.truthy content);
          [destruct (Py.contains (String Py.LF "") content)|]|]|..];
    simpl; rewrite ?Hfiles;
    try destruct (bool_decide (is_Some (files w !! filename)));
    simpl; rewrite ?Hfiles; reflexivity.
Qed.

(** ** Early return on empty configuration *)

Section EarlyReturn.

Variable parse_document : string -> result Parsed.t.
Variable feed_rss : Feed.t -> string.

Lemma main_aggregate_empty_config (w : World) :
  (load_config "journals.dat" (Some "RSS_JOURNALS") w).1 = []
  \/ (load_config "keywords.dat" (Some "RSS_KEYWORDS") w).1 = [] ->
  exists w',
    main_aggregate parse_document w = (None, w')
    /\ only_printed w w'
    /\ last (stdout w')
       = Some "Error: Configuration files are empty or missing.".
Proof.
  intros Hempty. unfold main_aggregate. unfold bind at 1.
  pose proof (load_config_only_printed "journals.dat" (Some "RSS_JOURNALS") w)
    as Hw1.
  destruct (load_config "journals.dat" (Some "RSS_JOURNALS") w)
    as [rss_urls w1] eqn:Hurls.
  unfold bind at 1.
  pose proof (load_config_only_printed "keywords.dat" (Some "RSS_KEYWORDS") w1)
    as Hw2.
  pose proof (load_config_result "keywords.dat" (Some "RSS_KEYWORDS") w w1)
    as Hq.
  destruct (load_config "keywords.dat" (Some "RSS_KEYWORDS") w1)
    as [queries w2] eqn:Hqueries.
  simpl in Hw1, Hw2, Hq, Hempty.
  assert (bool_decide (rss_urls = []) || bool_decide (queries = []) = true)
    as ->.
  { apply orb_true_iff. destruct Hempty as [H|H].
    - left. by apply bool_decide_eq_true.
    - right. apply bool_decide_eq_true.
      destruct Hw1 as (Henv & Hfiles & _). by rewrite (Hq Henv Hfiles). }
  unfold bind, print, ret. eexists. split; [reflexivity|]. split.
  - apply (only_printed_trans w w1); [done|].
    apply (only_printed_trans w1 w2); [done|]. by repeat split.
  - apply last_snoc.
Qed.

(** C5. When the journal list or the keyword list loads as empty, [main]
    returns at once: nothing is fetched, nothing is written (the output
    file, like every file, is as it was), the clock is not read, and the
    last line printed is the configuration error.  Only the standard
    output has changed. *)
Theorem empty_config_aborts (w : World) :
  (load_config "journals.dat" (Some "RSS_JOURNALS") w).1 = []
  \/ (load_config "keywords.dat" (Some "RSS_KEYWORDS") w).1 = [] ->
  (main_aggregate parse_document w).1 = None
  /\ requests (main parse_document feed_rss w).2 = requests w
  /\ files (main parse_document feed_rss w).2 = files w
  /\ clock_reads (main parse_document feed_rss w).2 = clock_reads w
  /\ only_printed w (main parse_document feed_rss w).2
  /\ last (stdout (main parse_document feed_rss w).2)
     = Some "Error: Configuration files are empty or missing.".
Proof.
  intros Hempty.
  destruct (main_aggregate_empty_config w Hempty)
    as (w' & Hrun & Hframe & Hlast).
  unfold main, bind. rewrite Hrun. unfold ret. simpl.
  split; [done|]. destruct Hframe as (?&?&?&?&?&?&?).
  repeat split; done.
Qed.

End EarlyReturn.

Lemma empty_config_aborts_witness :
  let parse_document := fun _ : string => @Raised Parsed.t "not a feed" in
  let feed_rss := fun _ : Feed.t => "<rss/>" in
  let w := quiet_world ∅
             {[ "journals.dat" := "http://example.org/feed";
                "keywords.dat" := "# nothing yet";
                OUTPUT_FILE := "<rss>previous</rss>" ]} in
  ((load_config "journals.dat" (Some "RSS_JOURNALS") w).1 = []
   \/ (load_config "keywords.dat" (Some "RSS_KEYWORDS") w).1 = [])
  /\ requests (main parse_document feed_rss w).2 = requests w
  /\ files (main parse_document feed_rss w).2 = files w.
Proof.
  intros parse_document feed_rss w.
  assert ((load_config "journals.dat" (Some "RSS_JOURNALS") w).1 = []
          \/ (load_config "keywords.dat" (Some "RSS_KEYWORDS") w).1 = []) as H.
  { right. vm_compute. reflexivity. }
  split; [exact H|].
  destruct (empty_config_aborts parse_document feed_rss w H) as (_ & H1 & H2 & _).
  split; [exact H1 | exact H2].
Defined.

(** ** The reader of the previous output *)

Section Reader.

Variable parse_document : string -> result Parsed.t.

Lemma convert_struct_time_to_datetime_run (pub_struct : option struct_time)
    (w : World) :
  exists r w',
    convert_struct_time_to_datetime pub_struct w = (r, w')
    /\ stdout w' = stdout w
    /\ only_printed_and_timed w w'
    /\ match r with
       | Returned _ => date_converts pub_struct = true
       | Raised _ => date_converts pub_struct = false
       end.
Proof.
  unfold convert_struct_time_to_datetime, bind, datetime_now, ret.
  destruct pub_struct as [[e|t]|]; eexists _, _;
    (split; [reflexivity|]); by repeat split.
Qed.

Lemma existing_entry_run (entry : FeedEntry.t) (w : World) :
  exists r w',
    existing_entry entry w = (r, w')
    /\ stdout w' = stdout w
    /\ only_printed_and_timed w w'
    /\ match r with
       | Returned e =>
           date_converts (existing_date entry) = true
           /\ Entry.id e = entry_id entry /\ Entry.is_old e = Some true
       | Raised _ => date_converts (existing_date entry) = false
       end.
Proof.
  unfold existing_entry, bind.
  destruct (convert_struct_time_to_datetime_run (existing_date entry) w)
    as (r & w' & -> & Hout & Hframe & Hr).
  destruct r as [e|t]; eexists _, _; (split; [reflexivity|]);
    (split; [done|]); (split; [done|]); by repeat split.
Qed.

Lemma try_each_existing_entry (entries : list FeedEntry.t) (w : World) :
  exists r w',
    try_each existing_entry entries w = (r, w')
    /\ stdout w' = stdout w
    /\ only_printed_and_timed w w'
    /\ match r with
       | Returned es =>
           forallb (fun entry => date_converts (existing_date entry)) entries
           = true
           /\ length es = length entries
           /\ Entry.id <$> es = entry_id <$> entries
           /\ Forall (fun e => Entry.is_old e = Some true) es
       | Raised _ =>
           forallb (fun entry => date_converts (existing_date entry)) entries
           = false
       end.
Proof.
  revert w. induction entries as [|entry entries IH]; intros w.
  - exists (Returned []), w. split; [done|]. split; [done|].
    split; [by repeat split|]. by repeat split.
  - cbn [try_each forallb]. unfold bind at 1.
    destruct (existing_entry_run entry w) as (r & w1 & -> & Hout1 & Hf1 & Hr).
    destruct r as [e|en].
    { exists (Raised e), w1. rewrite Hr.
      split; [done|]. split; [done|]. by split. }
    destruct Hr as (-> & Hid & Hold). unfold bind at 1.
    destruct (IH w1) as (rs & w2 & -> & Hout2 & Hf2 & Hrs).
    assert (only_printed_and_timed w w2) as Hframe.
    { destruct Hf1 as (?&?&?&?&?&?), Hf2 as (?&?&?&?&?&?).
      repeat split; congruence. }
    destruct rs as [e|es].
    { exists (Raised e), w2. rewrite Hrs.
      split; [done|]. split; [congruence|]. by split. }
    destruct Hrs as (-> & Hlen & Hids & Holds).
    exists (Returned (en :: es)), w2.
    split; [done|]. split; [congruence|]. split; [done|].
    split; [done|]. split; [cbn [length]; by rewrite Hlen|].
    split; [by rewrite !fmap_cons, Hid, Hids | by constructor].
Qed.

(** C4, at the input where it fails.  When the previous output exists and
    the parser flags it as malformed ([bozo] is 1), [get_existing_items]
    prints the warning in any case, and then, when the dates of the
    recovered entries convert, returns one old entry for each entry the
    parser recovered: the entries are not ignored.  (When a date does not
    convert, the exception is caught, and then no entry is returned, as
    for a file that is not flagged.) *)
Theorem bozo_feed_entries_kept (w : World) (feed : Parsed.t) :
  is_Some (files w !! OUTPUT_FILE) ->
  parse_document (default EmptyString (files w !! OUTPUT_FILE)) = Returned feed ->
  Parsed.bozo feed = Some 1 ->
  (exists more,
      stdout (get_existing_items parse_document w).2
      = stdout w
        ++ ["Loading existing items from filtered_feed.xml...";
            "Warning: Existing XML file might be corrupted. Ignoring old items."]
        ++ more)
  /\ (forallb (fun entry => date_converts (existing_date entry))
        (Parsed.entries feed) = true ->
      length (get_existing_items parse_document w).1
      = length (Parsed.entries feed)
      /\ Entry.id <$> (get_existing_items parse_document w).1
         = entry_id <$> Parsed.entries feed
      /\ stdout (get_existing_items parse_document w).2
         = stdout w
           ++ ["Loading existing items from filtered_feed.xml...";
               "Warning: Existing XML file might be corrupted. Ignoring old items."])
  /\ (forallb (fun entry => date_converts (existing_date entry))
        (Parsed.entries feed) = false ->
      (get_existing_items parse_document w).1 = []).
Proof.
  intros Hfile Hparse Hbozo.
  unfold get_existing_items, bind, path_exists, feedparser_parse_file, print, ret.
  rewrite bool_decide_eq_true_2 by done. cbn [negb fst snd files].
  rewrite Hparse, bool_decide_eq_true_2 by done.
  match goal with
  | |- context [try_each existing_entry ?es ?w0] =>
      destruct (try_each_existing_entry es w0)
        as (r & w' & -> & Hout & _ & Hr)
  end.
  cbn [stdout] in Hout.
  destruct r as [e|olds]; cbn [fst snd stdout].
  - rewrite Hr, Hout. split; [|split; [discriminate | done]].
    eexists [_]. by rewrite <- !app_assoc.
  - destruct Hr as (-> & Hlen & Hids & _). rewrite Hout.
    split; [exists []; by rewrite <- !app_assoc|].
    split; [|discriminate]. intros _.
    split; [done|]. split; [done|]. by rewrite <- app_assoc.
Qed.

End Reader.

Lemma bozo_feed_entries_kept_witness :
  let recovered :=
    FeedEntry.mk (Some "[Nature] Foo") (Some "http://x/1") (Some "bar") None
      (Some "1") (Some "Nature") (Some (Some (Returned 1700000000))) None in
  let feed := Parsed.mk (Some 1) None [recovered] in
  let parse_document := fun _ : string => Returned feed in
  let w := quiet_world ∅ {[ OUTPUT_FILE := "<rss><channel><item>...</item><oops" ]} in
  is_Some (files w !! OUTPUT_FILE)
  /\ parse_document (default EmptyString (files w !! OUTPUT_FILE)) = Returned feed
  /\ Parsed.bozo feed = Some 1
  /\ forallb (fun entry => date_converts (existing_date entry))
       (Parsed.entries feed) = true
  /\ length (get_existing_items parse_document w).1 = 1%nat.
Proof.
  intros recovered feed parse_document w.
  assert (is_Some (files w !! OUTPUT_FILE)) as H1 by (vm_compute; eauto).
  assert (parse_document (default EmptyString (files w !! OUTPUT_FILE))
          = Returned feed) as H2 by reflexivity.
  assert (Parsed.bozo feed = Some 1) as H3 by reflexivity.
  assert (forallb (fun entry => date_converts (existing_date entry))
            (Parsed.entries feed) = true) as H4 by reflexivity.
  split; [exact H1|]. split; [exact H2|]. split; [exact H3|].
  split; [exact H4|].
  exact (proj1 (proj1 (proj2 (bozo_feed_entries_kept parse_document w feed
                                 H1 H2 H3)) H4)).
Defined.

Example malformed_previous_output :
  let recovered :=
    FeedEntry.mk (Some "[Nature] Foo") (Some "http://x/1") (Some "bar") None
      (Some "1") (Some "Nature") (Some (Some (Returned 1700000000))) None in
  let parse_document := fun _ : string => Returned (Parsed.mk (Some 1) None [recovered]) in
  let w := quiet_world ∅ {[ OUTPUT_FILE := "<rss><channel><item>...</item><oops" ]} in
  (get_existing_items parse_document w).1
  = [Entry.mk "[Nature] Foo" "http://x/1" 1700000000 "bar" "Nature" "1" (Some true)]
  /\ stdout (get_existing_items parse_document w).2
     = ["Loading existing items from filtered_feed.xml...";
        "Warning: Existing XML file might be corrupted. Ignoring old items."].
Proof. vm_compute. split; reflexivity. Qed.

(** ** The aggregator *)

Lemma accept_app (queries : list string) (f1 f2 : list Entry.t) (acc : Acc) :
  accept queries (f1 ++ f2) acc = accept queries f2 (accept queries f1 acc).
Proof.
  revert acc. induction f1 as [|e f1 IH]; intros acc; [done|].
  cbn [app accept]. repeat case_match; apply IH.
Qed.

Lemma seen_all_initial (existing_entries : list Entry.t) :
  seen_all (initial_acc existing_entries).
Proof. intros x. simpl. apply elem_of_list_to_set. Qed.

Lemma seen_all_accepted (acc : Acc) (entry : Entry.t) :
  seen_all acc ->
  seen_all (mkAcc (all_entries acc ++ [entry])
                  ({[Entry.id entry]} ∪ seen_ids acc) (S (new_count acc))).
Proof.
  intros H x. simpl. rewrite fmap_app, elem_of_app, elem_of_union, (H x).
  rewrite elem_of_singleton. simpl. rewrite list_elem_of_singleton. tauto.
Qed.



Lemma accept_NoDup (queries : list string) (fetched : list Entry.t)
    (acc : Acc) :
  seen_all acc ->
  NoDup (Entry.id <$> all_entries acc) ->
  NoDup (Entry.id <$> all_entries (accept queries fetched acc)).
Proof.
  revert acc. induction fetched as [|e fetched IH]; intros acc Hacc Hnd; [done|].
  cbn [accept]. destruct (bool_decide_reflect (Entry.id e ∈ seen_ids acc)) as [Hin|Hout].
  - by apply IH.
  - destruct (match_entry e queries); [|by apply IH].
    apply IH; [by apply seen_all_accepted|]. simpl.
    rewrite fmap_app. apply NoDup_app. split; [done|]. split.
    + intros x Hx Hx'. apply list_elem_of_singleton in Hx' as ->.
      by apply Hout, Hacc.
    + apply NoDup_singleton.
Qed.

Lemma accept_seen_mono (queries : list string) (fetched : list Entry.t)
    (acc : Acc) (x : string) :
  x ∈ seen_ids acc -> x ∈ seen_ids (accept queries fetched acc).
Proof.
  revert acc. induction fetched as [|e fetched IH]; intros acc Hx; [done|].
  cbn [accept]. repeat case_match; apply IH; try done.
  simpl. set_solver.
Qed.

(** After the loop, the id of every fetched entry that matches is seen. *)
Lemma accept_covers (queries : list string) (fetched : list Entry.t)
    (acc : Acc) (e : Entry.t) :
  e ∈ fetched -> match_entry e queries = true ->
  Entry.id e ∈ seen_ids (accept queries fetched acc).
Proof.
  revert acc. induction fetched as [|e' fetched IH]; intros acc Hin Hm.
  - by apply elem_of_nil in Hin.
  - apply elem_of_cons in Hin as [<-|Hin].
    + cbn [accept].
      destruct (bool_decide_reflect (Entry.id e ∈ seen_ids acc)) as [Hs|Hs].
      * by apply accept_seen_mono.
      * rewrite Hm. apply accept_seen_mono. simpl. set_solver.
    + cbn [accept]. repeat case_match; by apply IH.
Qed.

(** When every fetched entry is seen or does not match, nothing is added. *)
Lemma accept_nothing (queries : list string) (fetched : list Entry.t)
    (acc : Acc) :
  (forall e, e ∈ fetched ->
             Entry.id e ∈ seen_ids acc \/ match_entry e queries = false) ->
  accept queries fetched acc = acc.
Proof.
  induction fetched as [|e fetched IH]; intros H; [done|].
  cbn [accept].
  destruct (bool_decide_reflect (Entry.id e ∈ seen_ids acc)) as [Hs|Hs].
  - apply IH. intros e' He'. apply H. by right.
  - destruct (H e) as [?|Hm]; [by left|done|].
    rewrite Hm. apply IH. intros e' He'. apply H. by right.
Qed.

Lemma aggregate_NoDup (queries : list string) (existing fetched : list Entry.t) :
  NoDup (Entry.id <$> existing) ->
  NoDup (Entry.id <$> aggregate queries existing fetched).
Proof. intros H. by apply accept_NoDup; [apply seen_all_initial|]. Qed.

Lemma rss_items_guids (items : list Entry.t) :
  Item.guid <$> rss_items items
  = Entry.id <$> take MAX_ITEMS (sort_by_pub_date_desc items).
Proof. unfold rss_items. by rewrite <- list_fmap_compose. Qed.

Lemma rss_items_NoDup (items : list Entry.t) :
  NoDup (Entry.id <$> items) -> NoDup (Item.guid <$> rss_items items).
Proof.
  intros H. rewrite rss_items_guids, fmap_take.
  eapply sublist_NoDup; [|apply sublist_take].
  by rewrite (sort_by_pub_date_desc_perm items).
Qed.

(** ** The loops of [main] *)

Lemma entries_loop_accept (queries : list string) (fetched : list Entry.t)
    (acc : Acc) (w : World) :
  exists w', entries_loop queries fetched acc w = (accept queries fetched acc, w')
             /\ only_printed w w'.
Proof.
  revert acc w. induction fetched as [|e fetched IH]; intros acc w.
  - exists w. split; [done | apply only_printed_refl].
  - cbn [entries_loop accept].
    destruct (bool_decide (Entry.id e ∈ seen_ids acc)); [apply IH|].
    destruct (match_entry e queries); [|apply IH].
    unfold bind, print.
    match goal with
    | |- context [entries_loop queries fetched ?a ?w0] =>
        destruct (IH a w0) as (w' & -> & Hframe)
    end.
    exists w'. split; [done|].
    eapply only_printed_trans; [|exact Hframe]. by repeat split.
Qed.

(** A fetched entry whose id is seen is skipped, whatever it matches. *)
Lemma entries_loop_seen_skipped (queries : list string) (entry : Entry.t)
    (rest : list Entry.t) (acc : Acc) :
  Entry.id entry ∈ seen_ids acc ->
  entries_loop queries (entry :: rest) acc = entries_loop queries rest acc.
Proof. intros H. cbn [entries_loop]. by rewrite bool_decide_eq_true_2. Qed.

Lemma urls_loop_accept (queries rss_urls : list string) (acc : Acc) (w : World) :
  exists fetched w',
    urls_loop queries rss_urls acc w = (accept queries fetched acc, w').
Proof.
  revert acc w. induction rss_urls as [|url rss_urls IH]; intros acc w.
  - by exists [], w.
  - cbn [urls_loop]. unfold bind.
    destruct (parse_rss url w) as [f1 w1].
    destruct (entries_loop_accept queries f1 acc w1) as (w2 & -> & _).
    destruct (IH (accept queries f1 acc) w2) as (f2 & w3 & ->).
    exists (f1 ++ f2), w3. by rewrite accept_app.
Qed.

Section Aggregation.

Variable parse_document : string -> result Parsed.t.

Lemma get_existing_items_ids (w : World) :
  Entry.id <$> (get_existing_items parse_document w).1
  = prior_ids parse_document (files w).
Proof.
  unfold get_existing_items, prior_ids, bind, path_exists,
    feedparser_parse_file, print, ret.
  destruct (bool_decide (is_Some (files w !! OUTPUT_FILE))); [|done].
  simpl. destruct (parse_document _) as [e|feed]; [done|].
  destruct (bool_decide (Parsed.bozo feed = Some 1)); simpl;
    match goal with
    | |- context [try_each existing_entry ?es ?w0] =>
        destruct (try_each_existing_entry es w0) as (r & w' & -> & _ & _ & Hr)
    end;
    (destruct r as [e|olds];
     [by rewrite Hr | destruct Hr as (-> & _ & Hids & _); done]).
Qed.

(** When [main] goes on to write, its [all_entries] is the aggregate of
    the old entries and of what the journals served. *)
Lemma main_aggregate_some (w : World) (all : list Entry.t) :
  (main_aggregate parse_document w).1 = Some all ->
  exists existing fetched,
    all = aggregate (load_config "keywords.dat" (Some "RSS_KEYWORDS") w).1
            existing fetched
    /\ Entry.id <$> existing = Entry.id <$> (get_existing_items parse_document w).1.
Proof.
  unfold main_aggregate. unfold bind at 1.
  pose proof (load_config_only_printed "journals.dat" (Some "RSS_JOURNALS") w)
    as Hw1.
  destruct (load_config "journals.dat" (Some "RSS_JOURNALS") w) as [rss_urls w1].
  unfold bind at 1.
  pose proof (load_config_only_printed "keywords.dat" (Some "RSS_KEYWORDS") w1)
    as Hw2.
  pose proof (load_config_result "keywords.dat" (Some "RSS_KEYWORDS") w w1)
    as Hq.
  destruct (load_config "keywords.dat" (Some "RSS_KEYWORDS") w1) as [queries w2].
  cbn [fst snd] in Hw1, Hw2, Hq.
  destruct Hw1 as (Henv1 & Hfiles1 & _), Hw2 as (_ & Hfiles2 & _).
  rewrite <- (Hq Henv1 Hfiles1).
  destruct (bool_decide (rss_urls = []) || bool_decide (queries = []));
    [unfold bind, print, ret; simpl; discriminate|].
  unfold bind at 1.
  pose proof (get_existing_items_ids w2) as Hids.
  destruct (get_existing_items parse_document w2) as [existing w3].
  cbn [fst] in Hids. unfold bind at 1. unfold print at 1.
  unfold bind at 1.
  match goal with
  | |- context [urls_loop queries rss_urls ?a ?w0] =>
      destruct (urls_loop_accept queries rss_urls a w0) as (fetched & w4 & ->)
  end.
  unfold bind, print, ret. simpl. intros [= <-].
  exists existing, fetched. split; [done|].
  rewrite Hids, get_existing_items_ids. congruence.
Qed.

(** C2 (as amended). When the entries of the previous output have pairwise
    distinct ids, no two entries of the merged list, and no two items of
    the output, share an id: a fetched entry whose id is that of an old
    entry or of an entry accepted before it is skipped, whatever it
    matches. *)
Theorem merged_ids_unique (w : World) (all : list Entry.t) :
  (main_aggregate parse_document w).1 = Some all ->
  NoDup (Entry.id <$> (get_existing_items parse_document w).1) ->
  NoDup (Entry.id <$> all)
  /\ NoDup (Item.guid <$> rss_items all)
  /\ (forall queries entry rest acc,
         Entry.id entry ∈ seen_ids acc ->
         entries_loop queries (entry :: rest) acc
         = entries_loop queries rest acc).
Proof.
  intros Hall Hold.
  destruct (main_aggregate_some w all Hall) as (existing & fetched & -> & Hids).
  rewrite <- Hids in Hold.
  assert (NoDup (Entry.id <$> aggregate
                   (load_config "keywords.dat" (Some "RSS_KEYWORDS") w).1
                   existing fetched)) as Hnd by by apply aggregate_NoDup.
  split; [done|]. split; [by apply rss_items_NoDup|].
  apply entries_loop_seen_skipped.
Qed.

End Aggregation.

Lemma merged_ids_unique_witness :
  let parse_document := fun _ : string =>
    Returned (Parsed.mk (Some 0) None
                [parsed_entry "[Nature] Brain tumor" "old" "1" "Nature" 100]) in
  let w := sample_world
             (Parsed.mk (Some 0) (Some "Nature")
                [parsed_entry "Brain tumor" "old" "1" "" 100;
                 parsed_entry "Liver tumor" "new" "2" "" 200;
                 parsed_entry "Liver tumor again" "same id" "2" "" 300]) in
  let all :=
    [Entry.mk "[Nature] Brain tumor" "http://example.org/1" 100 "old" "Nature"
       "1" (Some true);
     Entry.mk "Liver tumor" "http://example.org/2" 200 "new" "Nature" "2" None] in
  (main_aggregate parse_document w).1 = Some all
  /\ NoDup (Entry.id <$> (get_existing_items parse_document w).1)
  /\ NoDup (Item.guid <$> rss_items all).
Proof.
  intros parse_document w all.
  assert ((main_aggregate parse_document w).1 = Some all) as H1
    by (vm_compute; reflexivity).
  assert (NoDup (Entry.id <$> (get_existing_items parse_document w).1)) as H2
    by (vm_compute; apply NoDup_singleton).
  split; [exact H1|]. split; [exact H2|].
  exact (proj1 (proj2 (merged_ids_unique parse_document w all H1 H2))).
Defined.

(** C2 as stated fails: the old entries are taken over as they are, so two
    entries of the previous output with one id both reach the output. *)
Lemma duplicate_old_ids_survive :
  ~ (forall (parse_document : string -> result Parsed.t) (w : World)
            (all : list Entry.t),
        (main_aggregate parse_document w).1 = Some all ->
        NoDup (Item.guid <$> rss_items all)).
Proof.
  intros H.
  specialize (H (fun _ => Returned
                   (Parsed.mk (Some 0) None
                      [parsed_entry "[Nature] Brain tumor" "old" "1" "Nature" 100;
                       parsed_entry "[Nature] Brain tumor" "old" "1" "Nature" 100]))
                (sample_world (Parsed.mk (Some 0) (Some "Nature") []))
                _ eq_refl).
  vm_compute in H. apply NoDup_cons in H as [Hnotin _].
  apply Hnotin, list_elem_of_here.
Qed.

(** ** Running the pipeline again *)

Lemma rss_item_reread (e : Entry.t) :
  rss_item (reread (rss_item e)) = rss_item e.
Proof.
  unfold rss_item, reread. simpl.
  by rewrite !remove_illegal_xml_chars_idem.
Qed.

Lemma try_each_existing_entry_as_parsed (items : list Item.t) (w : World) :
  try_each existing_entry (as_parsed <$> items) w
  = (Returned (reread <$> items), w).
Proof.
  induction items as [|item items IH]; [done|].
  rewrite !fmap_cons. cbn [try_each]. unfold bind at 1.
  change (existing_entry (as_parsed item) w) with (Returned (reread item), w).
  unfold bind. by rewrite IH.
Qed.

(** When the parser hands the previous output back as it was written,
    [get_existing_items] returns the items as old entries. *)
Lemma get_existing_items_reread (parse_document : string -> result Parsed.t)
    (w : World) (bozo : option Z) (feed_title : option string)
    (items : list Item.t) :
  is_Some (files w !! OUTPUT_FILE) ->
  parse_document (default EmptyString (files w !! OUTPUT_FILE))
  = Returned (Parsed.mk bozo feed_title (as_parsed <$> items)) ->
  (get_existing_items parse_document w).1 = reread <$> items.
Proof.
  intros Hfile Hparse.
  unfold get_existing_items, bind, path_exists, feedparser_parse_file, print, ret.
  rewrite bool_decide_eq_true_2 by done. simpl. rewrite Hparse. simpl.
  destruct (bool_decide (bozo = Some 1));
    by rewrite try_each_existing_entry_as_parsed.
Qed.



Lemma rss_items_all (items : list Entry.t) :
  (length items <= MAX_ITEMS)%nat ->
  rss_items items = rss_item <$> sort_by_pub_date_desc items.
Proof.
  intros H. unfold rss_items. rewrite take_ge; [done|].
  by rewrite (Permutation_length (sort_by_pub_date_desc_perm items)).
Qed.






(** *** A full previous output whose oldest entry is served again *)





Section Truncation.

(** The 999 other entries of the previous output: distinct, dated after
    the oldest entry and before the new one, with ids of their own. *)
Variable olds : list Entry.t.
Hypothesis olds_length : length olds = 999%nat.
Hypothesis olds_NoDup : NoDup olds.
Hypothesis olds_dates :
  forall e, e ∈ olds -> 0 < Entry.pub_date e < 5000.
Hypothesis olds_ids :
  forall e, e ∈ olds -> Entry.id e <> "x" /\ Entry.id e <> "n".












End Truncation.





(** * Further properties of the pipeline *)

(** ** Matching *)

Lemma query_loop_app (text : string) (qs1 qs2 : list string) :
  query_loop text (qs1 ++ qs2) = query_loop text qs1 || query_loop text qs2.
Proof.
  induction qs1 as [|q qs1 IH]; [done|].
  cbn [app query_loop]. rewrite IH.
  destruct (negb (and_loop _ text)); [done|].
  by destruct (and_loop _ text && negb (not_loop _ text)).
Qed.

(** X1. The queries are alternatives: an entry matches a list of queries put
    together exactly when it matches one of the two parts; the order of
    the queries does not matter, and no query list at all matches
    nothing. *)
Theorem match_entry_alternatives (entry : Entry.t) (qs1 qs2 : list string) :
  match_entry entry (qs1 ++ qs2)
  = match_entry entry qs1 || match_entry entry qs2
  /\ match_entry entry (qs1 ++ qs2) = match_entry entry (qs2 ++ qs1)
  /\ match_entry entry [] = false.
Proof.
  unfold match_entry. rewrite !query_loop_app.
  split; [done|]. split; [apply orb_comm | done].
Qed.

(** X2. A query with an empty excluded term (two [' NOT '] in a row, or a
    [' NOT '] at its end) selects nothing: the empty string is in every
    text, so the query is as good as absent from the list. *)
Theorem empty_excluded_term_blocks (entry : Entry.t) (query : string)
    (queries : list string) :
  EmptyString ∈ excluded_terms query ->
  match_entry entry (query :: queries) = match_entry entry queries.
Proof.
  intros Hin. unfold match_entry. fold (searched_text entry).
  change (query :: queries) with ([query] ++ queries).
  rewrite query_loop_app.
  destruct (query_loop (searched_text entry) [query]) eqn:Hq; [|reflexivity].
  apply query_loop_spec in Hq as (q & ->%list_elem_of_singleton & Hm).
  destruct Hm as [_ Hnot]. exfalso. apply (Hnot EmptyString Hin). apply contains_spec, contains_empty.
Qed.

Lemma empty_excluded_term_blocks_witness :
  let entry := Entry.mk "Brain tumor" "http://x/1" 0 "bar" "Nature" "1" None in
  EmptyString ∈ excluded_terms "tumor NOT  NOT benign"
  /\ match_entry entry ["tumor NOT  NOT benign"; "liver"] = match_entry entry ["liver"]
  /\ match_entry entry ["tumor NOT  NOT benign"] = false.
Proof.
  intros entry.
  assert (EmptyString ∈ excluded_terms "tumor NOT  NOT benign") as H.
  { change (excluded_terms "tumor NOT  NOT benign") with [EmptyString; "benign"].
    apply list_elem_of_here. }
  split; [exact H|]. split.
  - exact (empty_excluded_term_blocks entry _ ["liver"] H).
  - exact (empty_excluded_term_blocks entry _ [] H).
Defined.

(** ** Sorting *)

Lemma insert_desc_filter_same (x : Entry.t) (l : list Entry.t) :
  filter (fun e => Entry.pub_date e = Entry.pub_date x) (insert_desc x l)
  = x :: filter (fun e => Entry.pub_date e = Entry.pub_date x) l.
Proof.
  induction l as [|y l IH]; cbn [insert_desc].
  - by rewrite filter_cons_True.
  - destruct (Z.leb_spec (Entry.pub_date y) (Entry.pub_date x)) as [Hle|Hlt].
    + by rewrite (filter_cons_True _ x).
    + rewrite (filter_cons_False _ y) by lia.
      rewrite (filter_cons_False _ y) by lia. apply IH.
Qed.

Lemma insert_desc_filter_other (x : Entry.t) (l : list Entry.t) (d : Z) :
  Entry.pub_date x <> d ->
  filter (fun e => Entry.pub_date e = d) (insert_desc x l)
  = filter (fun e => Entry.pub_date e = d) l.
Proof.
  intros Hd. induction l as [|y l IH]; cbn [insert_desc].
  - by rewrite filter_cons_False.
  - destruct (Entry.pub_date y <=? Entry.pub_date x).
    + by rewrite (filter_cons_False _ x).
    + destruct (decide (Entry.pub_date y = d)).
      * rewrite !(filter_cons_True _ y) by done. by rewrite IH.
      * rewrite !(filter_cons_False _ y) by done. apply IH.
Qed.

(** X13. The sort of the feed writer is stable: entries with the same
    [pub_date] keep the order they had in the aggregate, so among entries
    of one date the old ones, which come first in [all_entries], stay
    ahead of the new ones. *)
Theorem sort_by_pub_date_desc_stable (items : list Entry.t) (d : Z) :
  filter (fun e => Entry.pub_date e = d) (sort_by_pub_date_desc items)
  = filter (fun e => Entry.pub_date e = d) items.
Proof.
  induction items as [|x items IH]; [done|].
  cbn [sort_by_pub_date_desc foldr]. fold (sort_by_pub_date_desc items).
  destruct (decide (Entry.pub_date x = d)) as [<-|Hne].
  - rewrite insert_desc_filter_same, filter_cons_True by done. by rewrite IH.
  - rewrite insert_desc_filter_other, filter_cons_False by done. apply IH.
Qed.

(** ** What the writer copies and what it cleans *)

(** X14. Every item of the output is built from an entry of the aggregate: its
    guid, link and date are the entry's id, link and [pub_date], copied as
    they are (they do not go through the sanitizer); its description and
    author are the sanitized summary and journal. *)
Theorem rss_items_provenance (items : list Entry.t) :
  Forall (fun out =>
            exists e, e ∈ items
                      /\ Item.guid out = Entry.id e
                      /\ Item.link out = Entry.link e
                      /\ Item.pubDate out = Entry.pub_date e
                      /\ Item.description out
                         = remove_illegal_xml_chars (Entry.summary e)
                      /\ Item.author out
                         = remove_illegal_xml_chars (Entry.journal e))
    (rss_items items).
Proof.
  unfold rss_items. apply Forall_fmap, Forall_forall. intros e He.
  exists e. split; [|by repeat split].
  apply subseteq_take in He.
  by rewrite (sort_by_pub_date_desc_perm items) in He.
Qed.

Lemma re_sub_empty_app (cls : char_class) (a b : string) :
  re_sub_empty cls (a +:+ b) = re_sub_empty cls a +:+ re_sub_empty cls b.
Proof.
  induction a as [|c a IH]; [done|].
  rewrite append_cons. cbn [re_sub_empty].
  destruct (class_matches cls c); [done|]. by rewrite append_cons, IH.
Qed.

(** X15. The sanitizer works character by character: it distributes over
    concatenation and cleaning twice is cleaning once.  So the title of a
    freshly matched entry is ["[" + author + "] "] followed by the
    sanitized original title, with the same journal text as the author
    field of the item. *)
Theorem fresh_title_from_clean_parts (item : Entry.t) :
  (forall a b, remove_illegal_xml_chars (a +:+ b)
               = remove_illegal_xml_chars a +:+ remove_illegal_xml_chars b)
  /\ (forall a, remove_illegal_xml_chars (remove_illegal_xml_chars a)
                = remove_illegal_xml_chars a)
  /\ (dict_get (Entry.is_old item) false = false ->
      Item.title (rss_item item)
      = "[" +:+ Item.author (rss_item item) +:+ "] "
        +:+ remove_illegal_xml_chars (Entry.title item)).
Proof.
  split; [|split].
  - intros a b. rewrite !remove_illegal_xml_chars_eq. apply re_sub_empty_app.
  - apply remove_illegal_xml_chars_idem.
  - intros Hfresh. unfold rss_item. cbn [Item.title Item.author].
    rewrite Hfresh. cbn [negb].
    rewrite !remove_illegal_xml_chars_eq, !re_sub_empty_app. reflexivity.
Qed.

Lemma fresh_title_from_clean_parts_witness :
  let item := Entry.mk (String "001" "Foo") "http://x/1" 0 "bar"
                (String "007" "Nature") "1" None in
  dict_get (Entry.is_old item) false = false
  /\ Item.title (rss_item item)
     = "[" +:+ Item.author (rss_item item) +:+ "] "
       +:+ remove_illegal_xml_chars (Entry.title item)
  /\ Item.title (rss_item item) = "[Nature] Foo".
Proof.
  intros item.
  assert (dict_get (Entry.is_old item) false = false) as H by reflexivity.
  split; [exact H|]. split.
  - exact (proj2 (proj2 (fresh_title_from_clean_parts item)) H).
  - reflexivity.
Defined.

(** X16. Writing what was read back changes nothing: the items built from the
    old entries that a faithful reading of the output gives are the items
    of that output, in the same order; no title is prefixed twice and no
    entry moves. *)
Theorem rss_items_reread (items : list Entry.t) :
  rss_items (reread <$> rss_items items) = rss_items items.
Proof.
  set (kept := take MAX_ITEMS (sort_by_pub_date_desc items)).
  assert (rss_items items = rss_item <$> kept) as Hitems by reflexivity.
  rewrite Hitems.
  assert (StronglySorted not_older (reread <$> (rss_item <$> kept))) as Hsorted.
  { rewrite <- list_fmap_compose.
    apply StronglySorted_fmap with (R1 := not_older); [by intros a b|].
    pose proof (sort_by_pub_date_desc_sorted items) as Hs.
    rewrite <- (take_drop MAX_ITEMS) in Hs.
    by apply StronglySorted_app_1_l in Hs. }
  assert (length (reread <$> (rss_item <$> kept)) <= MAX_ITEMS)%nat as Hlen.
  { rewrite !length_fmap. unfold kept. rewrite length_take. lia. }
  rewrite (rss_items_all _ Hlen), (sort_by_pub_date_desc_sorted_id _ Hsorted).
  rewrite <- !list_fmap_compose.
  apply list_fmap_ext. intros i e _. apply rss_item_reread.
Qed.

(** ** What the aggregator adds *)



(** X12. Serving the same entries a second time adds nothing: a journal listed
    twice in the configuration, or two journals with the same entries,
    contribute each entry once. *)
Theorem repeated_feed_adds_nothing (queries : list string)
    (existing fetched : list Entry.t) :
  aggregate queries existing (fetched ++ fetched)
  = aggregate queries existing fetched.
Proof.
  unfold aggregate. rewrite accept_app. f_equal.
  apply accept_nothing. intros e He.
  destruct (match_entry e queries) eqn:Hm; [left | by right].
  by apply accept_covers.
Qed.

(** ** Fetching with retries *)

Lemma same_store_refl (w : World) : same_store w w.
Proof. by repeat split. Qed.

Lemma same_store_trans (w1 w2 w3 : World) :
  same_store w1 w2 -> same_store w2 w3 -> same_store w1 w3.
Proof.
  unfold same_store. intros (?&?&?&?) (?&?&?&?). repeat split; congruence.
Qed.

Lemma only_printed_same_store (w w' : World) :
  only_printed w w' -> same_store w w'.
Proof. intros (?&?&?&?&?&?&?). by repeat split. Qed.

Lemma only_printed_and_timed_same_store (w w' : World) :
  only_printed_and_timed w w' -> same_store w w'.
Proof. intros (?&?&?&?&?&?). by repeat split. Qed.

Lemma fetched_entry_run (journal_title : string) (entry : FeedEntry.t)
    (w : World) :
  exists r w',
    fetched_entry journal_title entry w = (r, w')
    /\ stdout w' = stdout w
    /\ only_printed_and_timed w w'
    /\ match r with
       | Returned e =>
           date_converts (fetched_date entry) = true
           /\ Entry.id e = entry_id entry /\ Entry.is_old e = None
           /\ Entry.journal e = journal_title
       | Raised _ => date_converts (fetched_date entry) = false
       end.
Proof.
  unfold fetched_entry, bind.
  destruct (convert_struct_time_to_datetime_run (fetched_date entry) w)
    as (r & w' & -> & Hout & Hframe & Hr).
  destruct r as [e|t]; eexists _, _; (split; [reflexivity|]);
    (split; [done|]); (split; [done|]); by repeat split.
Qed.

Lemma try_each_fetched_entry (journal_title : string)
    (entries : list FeedEntry.t) (w : World) :
  exists r w',
    try_each (fetched_entry journal_title) entries w = (r, w')
    /\ stdout w' = stdout w
    /\ only_printed_and_timed w w'
    /\ match r with
       | Returned es =>
           forallb (fun entry => date_converts (fetched_date entry)) entries
           = true
           /\ length es = length entries
           /\ Forall (fun e => Entry.is_old e = None
                               /\ Entry.journal e = journal_title) es
           /\ Entry.id <$> es = entry_id <$> entries
       | Raised _ =>
           forallb (fun entry => date_converts (fetched_date entry)) entries
           = false
       end.
Proof.
  revert w. induction entries as [|entry entries IH]; intros w.
  - exists (Returned []), w. split; [done|]. split; [done|].
    split; [by repeat split|]. by repeat split.
  - cbn [try_each forallb]. unfold bind at 1.
    destruct (fetched_entry_run journal_title entry w)
      as (r & w1 & -> & Hout1 & Hf1 & Hr).
    destruct r as [e|en].
    { exists (Raised e), w1. rewrite Hr.
      split; [done|]. split; [done|]. by split. }
    destruct Hr as (-> & Hid & Hold & Hj). unfold bind at 1.
    destruct (IH w1) as (rs & w2 & -> & Hout2 & Hf2 & Hrs).
    assert (only_printed_and_timed w w2) as Hframe.
    { destruct Hf1 as (?&?&?&?&?&?), Hf2 as (?&?&?&?&?&?).
      repeat split; congruence. }
    destruct rs as [e|es].
    { exists (Raised e), w2. rewrite Hrs.
      split; [done|]. split; [congruence|]. by split. }
    destruct Hrs as (-> & Hlen & Hall & Hids).
    exists (Returned (en :: es)), w2.
    split; [done|]. split; [congruence|]. split; [done|].
    split; [done|]. split; [cbn [length]; by rewrite Hlen|].
    split; [by constructor | by rewrite !fmap_cons, Hid, Hids].
Qed.

Lemma parse_rss_attempts_failed (rss_url e : string) (n : nat) (w : World) :
  remote w rss_url (length (requests w)) = Raised e ->
  parse_rss_attempts rss_url (S n) w
  = parse_rss_attempts rss_url n (after_failed_attempt rss_url e w).
Proof.
  intros H. cbn [parse_rss_attempts].
  unfold bind at 1. unfold feedparser_parse_url. by rewrite H.
Qed.

(** An attempt that is answered with a feed of which a date does not
    convert fails as well: one request, one line printed, two seconds. *)
Lemma parse_rss_attempts_bad_date (rss_url : string) (feed : Parsed.t)
    (n : nat) (w : World) :
  remote w rss_url (length (requests w)) = Returned feed ->
  forallb (fun entry => date_converts (fetched_date entry))
    (Parsed.entries feed) = false ->
  exists w1,
    parse_rss_attempts rss_url (S n) w = parse_rss_attempts rss_url n w1
    /\ same_store w w1
    /\ requests w1 = requests w ++ [rss_url]
    /\ slept w1 = slept w + 2
    /\ length (stdout w1) = S (length (stdout w)).
Proof.
  intros H Hbad. cbn [parse_rss_attempts].
  unfold bind at 1. unfold feedparser_parse_url. rewrite H.
  unfold bind at 1.
  match goal with
  | |- context [try_each (fetched_entry ?j) ?es ?w0] =>
      destruct (try_each_fetched_entry j es w0)
        as (r & w' & -> & Hout & Hframe & Hr)
  end.
  destruct r as [e|es]; [|destruct Hr as (Hr & _); congruence].
  unfold bind, print, time_sleep. eexists. split; [reflexivity|].
  destruct Hframe as (?&?&?&Hreq&?&Hslept).
  cbn [requests slept stdout environ files remote clock] in *.
  split; [by repeat split|]. split; [done|]. split; [by rewrite Hslept|].
  rewrite length_app, Hout. cbn [length]. lia.
Qed.

Lemma parse_rss_attempts_answered (rss_url : string) (feed : Parsed.t)
    (n : nat) (w : World) :
  remote w rss_url (length (requests w)) = Returned feed ->
  forallb (fun entry => date_converts (fetched_date entry))
    (Parsed.entries feed) = true ->
  exists es w',
    parse_rss_attempts rss_url (S n) w = (es, w')
    /\ length es = length (Parsed.entries feed)
    /\ Forall (fun e => Entry.is_old e = None
                        /\ Entry.journal e
                           = dict_get (Parsed.feed_title feed) "Unknown Journal") es
    /\ Entry.id <$> es = entry_id <$> Parsed.entries feed
    /\ requests w' = requests w ++ [rss_url]
    /\ slept w' = slept w
    /\ stdout w' = stdout w
    /\ same_store w w'.
Proof.
  intros H Hgood. cbn [parse_rss_attempts].
  unfold bind at 1. unfold feedparser_parse_url. rewrite H.
  unfold bind at 1.
  match goal with
  | |- context [try_each (fetched_entry ?j) ?es ?w0] =>
      destruct (try_each_fetched_entry j es w0)
        as (r & w' & -> & Hout & Hframe & Hr)
  end.
  destruct r as [e|es]; [congruence|].
  destruct Hr as (_ & Hlen & Hall & Hids).
  exists es, w'. destruct Hframe as (?&?&?&?&?&?).
  unfold ret. repeat split; try done.
Qed.

(** The attempts of [parse_rss]: after [k] failed attempts the next one
    succeeds, or all [n] attempts fail. *)
Lemma parse_rss_attempts_spec (rss_url : string) (n : nat) (w : World) :
  exists es w' k,
    parse_rss_attempts rss_url n w = (es, w')
    /\ same_store w w'
    /\ slept w' = slept w + 2 * Z.of_nat k
    /\ ((k < n)%nat
        /\ (exists feed,
               remote w rss_url (length (requests w) + k) = Returned feed
               /\ forallb (fun entry => date_converts (fetched_date entry))
                    (Parsed.entries feed) = true
               /\ length es = length (Parsed.entries feed)
               /\ Forall (fun e =>
                            Entry.is_old e = None
                            /\ Entry.journal e
                               = dict_get (Parsed.feed_title feed)
                                   "Unknown Journal") es
               /\ Entry.id <$> es = entry_id <$> Parsed.entries feed)
        /\ requests w' = requests w ++ replicate (S k) rss_url
        \/ k = n /\ es = [] /\ requests w' = requests w ++ replicate n rss_url).
Proof.
  revert w. induction n as [|n IH]; intros w.
  - exists [], w, 0%nat. split; [done|]. split; [apply same_store_refl|].
    split; [lia|]. right. by rewrite app_nil_r.
  - assert ((exists es w',
                parse_rss_attempts rss_url (S n) w = (es, w')
                /\ same_store w w' /\ slept w' = slept w
                /\ requests w' = requests w ++ [rss_url]
                /\ exists feed,
                     remote w rss_url (length (requests w)) = Returned feed
                     /\ forallb (fun entry => date_converts (fetched_date entry))
                          (Parsed.entries feed) = true
                     /\ length es = length (Parsed.entries feed)
                     /\ Forall (fun e =>
                                  Entry.is_old e = None
                                  /\ Entry.journal e
                                     = dict_get (Parsed.feed_title feed)
                                         "Unknown Journal") es
                     /\ Entry.id <$> es = entry_id <$> Parsed.entries feed)
            \/ (exists w1,
                   parse_rss_attempts rss_url (S n) w
                   = parse_rss_attempts rss_url n w1
                   /\ same_store w w1
                   /\ requests w1 = requests w ++ [rss_url]
                   /\ slept w1 = slept w + 2)) as [Hok|Hfail].
    { destruct (remote w rss_url (length (requests w))) as [e|feed] eqn:Hr.
      - right. exists (after_failed_attempt rss_url e w).
        split; [by apply parse_rss_attempts_failed|]. by repeat split.
      - destruct (forallb (fun entry => date_converts (fetched_date entry))
                    (Parsed.entries feed)) eqn:Hdates.
        + left.
          destruct (parse_rss_attempts_answered rss_url feed n w Hr Hdates)
            as (es & w' & Hrun & Hlen & Hall & Hids & Hreq & Hslept & _ & Hstore).
          exists es, w'. split; [done|]. split; [done|]. split; [done|].
          split; [done|]. exists feed. by repeat split.
        + right.
          destruct (parse_rss_attempts_bad_date rss_url feed n w Hr Hdates)
            as (w1 & Hrun & Hstore & Hreq & Hslept & _).
          exists w1. split; [done|]. split; [done|]. by split. }
    + destruct Hok as (es & w' & -> & Hstore & Hslept & Hreq & feed & Hfeed & Hrest).
      exists es, w', 0%nat. split; [done|]. split; [done|]. split; [lia|].
      left. split; [lia|]. split; [|done].
      exists feed. by rewrite Nat.add_0_r.
    + destruct Hfail as (w1 & -> & Hs1 & Hreq1 & Hslept1).
      destruct (IH w1) as (es & w' & k & -> & Hstore & Hslept & Hcase).
      rewrite Hreq1, length_app in Hcase. cbn [length] in Hcase.
      destruct Hs1 as (Henv1 & Hfiles1 & Hremote1 & Hclock1).
      rewrite Hremote1 in Hcase.
      exists es, w', (S k). split; [done|].
      split; [destruct Hstore as (?&?&?&?); repeat split; congruence|].
      split; [lia|].
      destruct Hcase as [(Hk & (feed & Hfeed & Hrest) & Hreq)|(-> & -> & Hreq)].
      * left. split; [lia|]. split.
        -- exists feed. split; [|done]. rewrite <- Hfeed. f_equal. lia.
        -- rewrite Hreq, <- app_assoc. reflexivity.
      * right. split; [done|]. split; [done|].
        rewrite Hreq, <- app_assoc. reflexivity.
Qed.

Lemma parse_rss_run (rss_url : string) (w : World) :
  parse_rss rss_url w
  = parse_rss_attempts rss_url 3
      (print ("Fetching: " +:+ rss_url +:+ "...") w).2.
Proof. reflexivity. Qed.

(** X6. Bounded retry.  [parse_rss] makes at least one and at most three
    requests, all to its url; it sleeps two seconds after each failure and
    never longer than six seconds; it touches neither the files nor the
    environment.  The entries it returns carry no [is_old] flag and all
    the same journal name. *)
Theorem parse_rss_bounded (rss_url : string) (w : World) :
  exists k journal_title,
    (1 <= k <= 3)%nat
    /\ requests (parse_rss rss_url w).2 = requests w ++ replicate k rss_url
    /\ slept w <= slept (parse_rss rss_url w).2 <= slept w + 6
    /\ environ (parse_rss rss_url w).2 = environ w
    /\ files (parse_rss rss_url w).2 = files w
    /\ Forall (fun e => Entry.is_old e = None
                        /\ Entry.journal e = journal_title)
         (parse_rss rss_url w).1.
Proof.
  rewrite parse_rss_run.
  destruct (parse_rss_attempts_spec rss_url 3
              (print ("Fetching: " +:+ rss_url +:+ "...") w).2)
    as (es & w' & k & -> & (Henv & Hfiles & _) & Hslept & Hcase).
  cbn [fst snd]. cbn [print snd requests slept environ files]
    in Henv, Hfiles, Hslept, Hcase.
  destruct Hcase as [(Hk & (feed & _ & _ & _ & Hall & _) & Hreq)|(-> & -> & Hreq)].
  - exists (S k), (dict_get (Parsed.feed_title feed) "Unknown Journal").
    split; [lia|]. split; [done|]. split; [lia|]. by repeat split.
  - exists 3%nat, EmptyString.
    split; [lia|]. split; [done|]. split; [lia|]. by repeat split.
Qed.



(** X8. A source that answers at once with a feed whose dates all convert
    is asked once, without any sleep; it gives one entry for each entry of
    the parsed feed, in order, with the feed's title as journal
    (["Unknown Journal"] when the feed has none) and, as id, the entry's
    id or else its link. *)
Theorem parse_rss_answered (rss_url : string) (feed : Parsed.t) (w : World) :
  remote w rss_url (length (requests w)) = Returned feed ->
  forallb (fun entry => date_converts (fetched_date entry))
    (Parsed.entries feed) = true ->
  length (parse_rss rss_url w).1 = length (Parsed.entries feed)
  /\ Forall (fun e => Entry.is_old e = None
                      /\ Entry.journal e
                         = dict_get (Parsed.feed_title feed) "Unknown Journal")
       (parse_rss rss_url w).1
  /\ Entry.id <$> (parse_rss rss_url w).1 = entry_id <$> Parsed.entries feed
  /\ requests (parse_rss rss_url w).2 = requests w ++ [rss_url]
  /\ slept (parse_rss rss_url w).2 = slept w.
Proof.
  intros H Hdates. rewrite parse_rss_run.
  destruct (parse_rss_attempts_answered rss_url feed 2
              (print ("Fetching: " +:+ rss_url +:+ "...") w).2 H Hdates)
    as (es & w' & -> & Hlen & Hall & Hids & Hreq & Hslept & _).
  by repeat split.
Qed.

Lemma parse_rss_answered_witness :
  let feed := Parsed.mk (Some 0) None
                [FeedEntry.mk (Some "Brain tumor") (Some "http://x/1") None
                   (Some "described") None None None None] in
  let w := sample_world feed in
  remote w "http://example.org/feed" (length (requests w)) = Returned feed
  /\ forallb (fun entry => date_converts (fetched_date entry))
       (Parsed.entries feed) = true
  /\ (parse_rss "http://example.org/feed" w).1
     = [Entry.mk "Brain tumor" "http://x/1" 1700000000 "described"
          "Unknown Journal" "http://x/1" None]
  /\ length (parse_rss "http://example.org/feed" w).1
     = length (Parsed.entries feed).
Proof.
  intros feed w.
  assert (remote w "http://example.org/feed" (length (requests w))
          = Returned feed) as H by reflexivity.
  assert (forallb (fun entry => date_converts (fetched_date entry))
            (Parsed.entries feed) = true) as Hd by reflexivity.
  split; [exact H|]. split; [exact Hd|]. split; [reflexivity|].
  exact (proj1 (parse_rss_answered "http://example.org/feed" feed w H Hd)).
Defined.



(** ** The previous output, read *)

Lemma get_existing_items_run (parse_document : string -> result Parsed.t)
    (w : World) :
  exists es w',
    get_existing_items parse_document w = (es, w')
    /\ only_printed_and_timed w w'
    /\ Forall (fun e => Entry.is_old e = Some true) es.
Proof.
  unfold get_existing_items, bind, path_exists, feedparser_parse_file, print, ret.
  destruct (bool_decide (is_Some (files w !! OUTPUT_FILE))).
  2:{ eexists _, _. split; [reflexivity|]. split; [by repeat split | constructor]. }
  cbn [negb fst snd files].
  destruct (parse_document _) as [e|feed].
  { eexists _, _. split; [reflexivity|]. split; [by repeat split | constructor]. }
  destruct (bool_decide (Parsed.bozo feed = Some 1));
    match goal with
    | |- context [try_each existing_entry ?es ?w0] =>
        destruct (try_each_existing_entry es w0)
          as (r & w' & -> & _ & (?&?&?&?&?&?) & Hr)
    end;
    (destruct r as [e|olds];
     [|destruct Hr as (_ & _ & _ & Holds)]);
    eexists _, _; (split; [reflexivity|]);
    (split; [by repeat split|]); first [done | constructor].
Qed.

Lemma get_existing_items_frame (parse_document : string -> result Parsed.t)
    (w : World) :
  only_printed_and_timed w (get_existing_items parse_document w).2.
Proof.
  by destruct (get_existing_items_run parse_document w) as (es & w' & -> & ? & _).
Qed.

(** X9. Whatever the previous output holds, the entries read from it are
    marked old, so the writer gives them their title as it is (sanitized,
    not prefixed with the journal again); reading them makes no request
    and changes no file. *)
Theorem existing_items_are_old (parse_document : string -> result Parsed.t)
    (w : World) :
  Forall (fun e => Entry.is_old e = Some true
                   /\ Item.title (rss_item e)
                      = remove_illegal_xml_chars (Entry.title e))
    (get_existing_items parse_document w).1
  /\ requests (get_existing_items parse_document w).2 = requests w
  /\ files (get_existing_items parse_document w).2 = files w.
Proof.
  destruct (get_existing_items_run parse_document w)
    as (es & w' & -> & Hframe & Hold).
  cbn [fst snd]. split.
  - eapply Forall_impl; [exact Hold|]. intros e He. split; [done|].
    rewrite rss_item_title. unfold raw_title. by rewrite He.
  - destruct Hframe as (?&?&?&?&?&?). by split.
Qed.

(** X10. Without a previous output, [get_existing_items] returns no entry and
    does nothing at all; when the parser raises, it returns no entry and
    only prints (the loading line and the error). *)
Theorem get_existing_items_unreadable
    (parse_document : string -> result Parsed.t) (w : World) :
  files w !! OUTPUT_FILE = None
  \/ (exists e, parse_document (default EmptyString (files w !! OUTPUT_FILE))
                = Raised e) ->
  (get_existing_items parse_document w).1 = []
  /\ only_printed w (get_existing_items parse_document w).2
  /\ (files w !! OUTPUT_FILE = None -> get_existing_items parse_document w = ([], w)).
Proof.
  intros H.
  unfold get_existing_items, bind, path_exists, feedparser_parse_file, print, ret.
  destruct (files w !! OUTPUT_FILE) as [content|] eqn:Hfile.
  - destruct H as [H|[e He]]; [discriminate|].
    rewrite bool_decide_eq_true_2 by eauto.
    cbn [negb fst snd files]. rewrite Hfile. cbn [default] in *. rewrite He.
    cbn [fst snd]. split; [done|]. split; [by repeat split | discriminate].
  - rewrite bool_decide_eq_false_2 by (intros [? ?]; discriminate).
    cbn [negb fst snd]. split; [done|]. split; [by repeat split | done].
Qed.

Lemma get_existing_items_unreadable_witness :
  let parse_document := fun _ : string => @Raised Parsed.t "not well-formed" in
  let w := quiet_world ∅ {[ OUTPUT_FILE := "garbage" ]} in
  (files w !! OUTPUT_FILE = None
   \/ (exists e, parse_document (default EmptyString (files w !! OUTPUT_FILE))
                 = Raised e))
  /\ (get_existing_items parse_document w).1 = []
  /\ stdout (get_existing_items parse_document w).2
     = ["Loading existing items from filtered_feed.xml...";
        "Error reading existing file: not well-formed"].
Proof.
  intros parse_document w.
  assert (files w !! OUTPUT_FILE = None
          \/ (exists e, parse_document (default EmptyString (files w !! OUTPUT_FILE))
                        = Raised e)) as H
    by (right; by exists "not well-formed").
  split; [exact H|]. split.
  - exact (proj1 (get_existing_items_unreadable parse_document w H)).
  - vm_compute. reflexivity.
Defined.

(** ** Configuration from the environment *)

(** X4. When the environment variable is set and not empty, the configuration
    is its content and nothing else: split on newlines when it has one, on
    semicolons otherwise (so a semicolon inside a line of a multi-line
    value is kept), each piece stripped, blank pieces dropped.  The local
    file is not looked at, also when every piece is blank and the result
    is empty. *)
Theorem load_config_from_env (filename name content : string) (w : World) :
  name <> EmptyString ->
  environ w !! name = Some content ->
  content <> EmptyString ->
  (load_config filename (Some name) w).1
  = stripped_nonblank
      (Py.split (if Py.contains (String Py.LF EmptyString) content
                 then String Py.LF EmptyString else ";") content)
  /\ stdout (load_config filename (Some name) w).2
     = stdout w ++ ["Loading config from environment variable: " +:+ name].
Proof.
  intros Hname Hget Hcontent.
  apply truthy_nonempty in Hname, Hcontent.
  unfold load_config, bind, environ_get, print, ret.
  rewrite Hname. cbn [fst snd]. rewrite Hget, Hcontent.
  by destruct (Py.contains (String Py.LF EmptyString) content).
Qed.

Lemma load_config_from_env_witness :
  let w := quiet_world {[ "RSS_KEYWORDS" := " ; " ]}
             {[ "keywords.dat" := "tumor" ]} in
  "RSS_KEYWORDS" <> EmptyString
  /\ environ w !! "RSS_KEYWORDS" = Some " ; "
  /\ " ; " <> EmptyString
  /\ (load_config "keywords.dat" (Some "RSS_KEYWORDS") w).1 = [].
Proof.
  intros w.
  assert ("RSS_KEYWORDS" <> EmptyString) as H1 by discriminate.
  assert (environ w !! "RSS_KEYWORDS" = Some " ; ") as H2
    by (vm_compute; reflexivity).
  assert (" ; " <> EmptyString) as H3 by discriminate.
  split; [exact H1|]. split; [exact H2|]. split; [exact H3|].
  rewrite (proj1 (load_config_from_env "keywords.dat" "RSS_KEYWORDS" " ; " w
                    H1 H2 H3)).
  reflexivity.
Defined.

(** ** The effects of a run *)

Lemma parse_rss_effects (rss_url : string) (w : World) :
  exists es w' k,
    parse_rss rss_url w = (es, w')
    /\ same_store w w'
    /\ (1 <= k <= 3)%nat
    /\ requests w' = requests w ++ replicate k rss_url.
Proof.
  rewrite parse_rss_run.
  destruct (parse_rss_attempts_spec rss_url 3
              (print ("Fetching: " +:+ rss_url +:+ "...") w).2)
    as (es & w' & k & -> & Hstore & _ & Hcase).
  cbn [print snd requests] in Hcase.
  assert (same_store w w') as Hstore'.
  { eapply same_store_trans; [|exact Hstore]. by repeat split. }
  destruct Hcase as [(Hk & _ & Hreq)|(-> & _ & Hreq)].
  - exists es, w', (S k). split; [done|]. split; [done|]. split; [lia | done].
  - exists es, w', 3%nat. split; [done|]. split; [done|]. split; [lia | done].
Qed.

Lemma urls_loop_effects (queries rss_urls : list string) (acc : Acc) (w : World) :
  exists acc' w' attempts,
    urls_loop queries rss_urls acc w = (acc', w')
    /\ same_store w w'
    /\ length attempts = length rss_urls
    /\ Forall (fun k => 1 <= k <= 3)%nat attempts
    /\ requests w' = requests w ++ requests_for attempts rss_urls.
Proof.
  revert acc w. induction rss_urls as [|url rss_urls IH]; intros acc w.
  - exists acc, w, []. split; [done|]. split; [apply same_store_refl|].
    split; [done|]. split; [constructor|]. by rewrite app_nil_r.
  - cbn [urls_loop]. unfold bind.
    destruct (parse_rss_effects url w) as (es & w1 & k & -> & Hs1 & Hk & Hr1).
    destruct (entries_loop_accept queries es acc w1) as (w2 & -> & Hp).
    destruct (IH (accept queries es acc) w2)
      as (acc' & w3 & attempts & -> & Hs3 & Hlen & Hall & Hr3).
    exists acc', w3, (k :: attempts). split; [done|].
    split.
    { eapply same_store_trans; [exact Hs1|].
      eapply same_store_trans; [|exact Hs3]. by apply only_printed_same_store. }
    split; [cbn [length]; by rewrite Hlen|]. split; [by constructor|].
    destruct Hp as (_ & _ & _ & Hr2 & _).
    rewrite Hr3, Hr2, Hr1, <- app_assoc. reflexivity.
Qed.

Section Run.

Variable parse_document : string -> result Parsed.t.
Variable feed_rss : Feed.t -> string.

Lemma main_aggregate_run (w : World) :
  exists r w',
    main_aggregate parse_document w = (r, w')
    /\ same_store w w'
    /\ (r = None
        \/ exists attempts,
             length attempts
             = length (load_config "journals.dat" (Some "RSS_JOURNALS") w).1
             /\ Forall (fun k => 1 <= k <= 3)%nat attempts
             /\ requests w'
                = requests w
                  ++ requests_for attempts
                       (load_config "journals.dat" (Some "RSS_JOURNALS") w).1).
Proof.
  unfold main_aggregate. unfold bind at 1.
  pose proof (load_config_only_printed "journals.dat" (Some "RSS_JOURNALS") w)
    as Hw1.
  destruct (load_config "journals.dat" (Some "RSS_JOURNALS") w) as [rss_urls w1].
  unfold bind at 1.
  pose proof (load_config_only_printed "keywords.dat" (Some "RSS_KEYWORDS") w1)
    as Hw2.
  destruct (load_config "keywords.dat" (Some "RSS_KEYWORDS") w1) as [queries w2].
  cbn [fst snd] in Hw1, Hw2 |- *.
  apply only_printed_same_store in Hw1 as Hs1.
  apply only_printed_same_store in Hw2 as Hs2.
  destruct (bool_decide (rss_urls = []) || bool_decide (queries = [])).
  { unfold bind, print, ret. eexists _, _. split; [reflexivity|].
    split; [|by left].
    eapply same_store_trans; [exact Hs1|].
    eapply same_store_trans; [exact Hs2|]. by repeat split. }
  unfold bind at 1.
  pose proof (get_existing_items_frame parse_document w2) as Hw3.
  destruct (get_existing_items parse_document w2) as [existing w3].
  cbn [snd] in Hw3. apply only_printed_and_timed_same_store in Hw3 as Hs3.
  unfold bind at 1. unfold print at 1. unfold bind at 1.
  match goal with
  | |- context [urls_loop queries rss_urls ?a ?w0] =>
      destruct (urls_loop_effects queries rss_urls a w0)
        as (acc' & w4 & attempts & -> & Hs4 & Hlen & Hall & Hreq)
  end.
  unfold bind, print, ret. eexists _, _. split; [reflexivity|].
  cbn [requests] in Hreq.
  split.
  - eapply same_store_trans; [exact Hs1|].
    eapply same_store_trans; [exact Hs2|].
    eapply same_store_trans; [exact Hs3|].
    eapply same_store_trans; [|eapply same_store_trans; [exact Hs4|]];
      by repeat split.
  - right. exists attempts. split; [done|]. split; [done|].
    destruct Hw1 as (_&_&_&Hr1&_), Hw2 as (_&_&_&Hr2&_), Hw3 as (_&_&_&Hr3&_).
    cbn [requests]. rewrite Hreq. congruence.
Qed.

Lemma main_aggregate_effects (w : World) (all : list Entry.t) :
  (main_aggregate parse_document w).1 = Some all ->
  exists w' attempts,
    main_aggregate parse_document w = (Some all, w')
    /\ same_store w w'
    /\ length attempts
       = length (load_config "journals.dat" (Some "RSS_JOURNALS") w).1
    /\ Forall (fun k => 1 <= k <= 3)%nat attempts
    /\ requests w'
       = requests w
         ++ requests_for attempts
              (load_config "journals.dat" (Some "RSS_JOURNALS") w).1.
Proof.
  destruct (main_aggregate_run w) as (r & w' & Hrun & Hstore & Hcase).
  rewrite Hrun. cbn [fst]. intros ->.
  destruct Hcase as [Hnone|(attempts & Hlen & Hk & Hreq)]; [discriminate|].
  by exists w', attempts.
Qed.

(** X17. A run that gets past the configuration check asks each configured
    journal in turn, at least once and at most three times, and nothing
    else; it leaves the environment and every file but the output as they
    were; and it always writes the output, also when nothing was added:
    the serialization of the feed built from the aggregate, with, as
    [lastBuildDate], the reading of the clock taken once the aggregate is
    complete. *)
Theorem main_effects (w : World) (all : list Entry.t) :
  (main_aggregate parse_document w).1 = Some all ->
  environ (main parse_document feed_rss w).2 = environ w
  /\ files (main parse_document feed_rss w).2
     = <[OUTPUT_FILE :=
           feed_rss
             (build_feed all
                (clock w (clock_reads (main_aggregate parse_document w).2)))]>
         (files w)
  /\ clock_reads (main parse_document feed_rss w).2
     = S (clock_reads (main_aggregate parse_document w).2)
  /\ (exists attempts,
         length attempts
         = length (load_config "journals.dat" (Some "RSS_JOURNALS") w).1
         /\ Forall (fun k => 1 <= k <= 3)%nat attempts
         /\ requests (main parse_document feed_rss w).2
            = requests w
              ++ requests_for attempts
                   (load_config "journals.dat" (Some "RSS_JOURNALS") w).1).
Proof.
  intros Hall.
  destruct (main_aggregate_effects w all Hall)
    as (w' & attempts & Hrun & (Henv & Hfiles & _ & Hclock) & Hlen & Hk & Hreq).
  unfold main, bind. rewrite Hrun.
  unfold generate_rss_xml, bind, datetime_now, write_text, print, ret.
  cbn [fst snd environ files requests clock_reads].
  split; [done|]. split; [by rewrite Hfiles, Hclock|]. split; [done|].
  exists attempts. by repeat split.
Qed.

End Run.

Lemma main_effects_witness :
  let parse_document := fun _ : string =>
    Returned (Parsed.mk (Some 0) None
                [parsed_entry "[Nature] Brain tumor" "old" "1" "Nature" 100]) in
  let feed_rss := fun feed : Feed.t =>
    Py.join ";" (Item.title <$> Feed.items feed) in
  let w := sample_world
             (Parsed.mk (Some 0) (Some "Nature")
                [parsed_entry "Liver tumor" "new" "2" "" 200]) in
  let all :=
    [Entry.mk "[Nature] Brain tumor" "http://example.org/1" 100 "old" "Nature"
       "1" (Some true);
     Entry.mk "Liver tumor" "http://example.org/2" 200 "new" "Nature" "2" None] in
  (main_aggregate parse_document w).1 = Some all
  /\ environ (main parse_document feed_rss w).2 = environ w
  /\ files (main parse_document feed_rss w).2 !! OUTPUT_FILE
     = Some "[Nature] Liver tumor;[Nature] Brain tumor"
  /\ requests (main parse_document feed_rss w).2 = ["http://example.org/feed"].
Proof.
  intros parse_document feed_rss w all.
  assert ((main_aggregate parse_document w).1 = Some all) as H
    by (vm_compute; reflexivity).
  split; [exact H|].
  split; [exact (proj1 (main_effects parse_document feed_rss w all H))|].
  split; vm_compute; reflexivity.
Defined.

(** ** Configuration from the local file *)

Lemma load_config_falls_back (filename : string) (env_var_name : option string)
    (w : World) :
  ~ env_configured env_var_name w ->
  load_config filename env_var_name w = load_config_file filename w.
Proof.
  intros Hno. unfold load_config.
  destruct env_var_name as [name|]; [|reflexivity].
  destruct (Py.truthy name) eqn:Hname; [|reflexivity].
  unfold bind at 1. unfold bind at 1. unfold environ_get.
  destruct (environ w !! name) as [content|] eqn:Hget; [|reflexivity].
  destruct (Py.truthy content) eqn:Hcontent; [|reflexivity].
  exfalso. apply Hno. exists name, content. by rewrite <- !truthy_nonempty.
Qed.

(** X5. When the environment variable is unset or empty, the configuration is
    read from the local file: the stripped lines of the file, in order,
    without the blank lines and without the lines whose first character is
    ['#'] (line ends of any kind are read as ['\n']).  A file that does
    not exist gives the empty configuration, and no error. *)
Theorem load_config_from_file (filename : string) (env_var_name : option string)
    (w : World) :
  ~ env_configured env_var_name w ->
  (load_config filename env_var_name w).1
  = Py.strip <$>
      List.filter (fun line => Py.truthy (Py.strip line)
                               && negb (Py.startswith "#" line))
        (file_lines filename w)
  /\ (files w !! filename = None ->
      load_config filename env_var_name w = ([], w)).
Proof.
  intros Hno. rewrite (load_config_falls_back filename env_var_name w Hno).
  unfold load_config_file, bind, path_exists, print, read_text, ret, file_lines.
  destruct (files w !! filename) as [content|] eqn:Hfile.
  - rewrite bool_decide_eq_true_2 by eauto. cbn [fst snd files].
    rewrite Hfile. split; [done | discriminate].
  - rewrite bool_decide_eq_false_2 by (intros [? ?]; discriminate).
    split; done.
Qed.

Lemma load_config_from_file_witness :
  let w := quiet_world {[ "RSS_JOURNALS" := "" ]}
             {[ "journals.dat" :=
                  String "#" ("feeds" +:+ String Py.CR (String Py.LF
                    (" http://a/rss " +:+ String Py.CR
                       (String Py.LF "http://b/rss")))) ]} in
  ~ env_configured (Some "RSS_JOURNALS") w
  /\ (load_config "journals.dat" (Some "RSS_JOURNALS") w).1
     = ["http://a/rss"; "http://b/rss"].
Proof.
  intros w.
  assert (~ env_configured (Some "RSS_JOURNALS") w) as H.
  { intros (name & content & [= <-] & _ & Hget & Hne).
    vm_compute in Hget. by injection Hget as <-. }
  split; [exact H|].
  rewrite (proj1 (load_config_from_file "journals.dat" (Some "RSS_JOURNALS") w H)).
  vm_compute. reflexivity.
Defined.

(** ** One-term queries *)

Lemma startswith_contains (x s : string) :
  Py.contains x s = false -> Py.startswith x s = false.
Proof. destruct s; simpl; by intros [? ?]%orb_false_iff. Qed.

Lemma split_without_separator (sep s : string) :
  Py.contains sep s = false -> Py.split sep s = [s].
Proof.
  unfold Py.split. induction s as [|c s IH]; intros H; [done|].
  cbn [Py.split_from]. rewrite (startswith_contains _ _ H).
  cbn [Py.contains] in H. apply orb_false_iff in H as [_ H].
  by rewrite (IH H).
Qed.

(** X3. A query that holds neither [' NOT '] nor [' AND '] is one term with
    nothing excluded: it matches exactly the entries whose lowercased
    "title summary" text contains the query, stripped and lowercased.  The
    case of the entry's text and of the term does not matter. *)
Theorem single_term_query (entry : Entry.t) (query : string) :
  Py.contains " NOT " query = false ->
  Py.contains " AND " query = false ->
  match_entry entry [query]
  = Py.contains (Py.lower (Py.strip query))
      (Py.lower (Entry.title entry +:+ " " +:+ Entry.summary entry)).
Proof.
  intros Hnot Hand. unfold match_entry. cbn [query_loop].
  rewrite (split_without_separator _ _ Hnot). cbn [hd length drop Nat.ltb Nat.leb].
  rewrite (split_without_separator _ _ Hand).
  cbn [fmap list_fmap and_loop not_loop]. unfold strip_lower.
  destruct (Py.contains (Py.lower (Py.strip query)) _); reflexivity.
Qed.

Lemma single_term_query_witness :
  let entry := Entry.mk "Tumor SEGMENTATION" "http://x/1" 0 "MRI and CT" "Nature"
                 "1" None in
  Py.contains " NOT " " Segmentation " = false
  /\ Py.contains " AND " " Segmentation " = false
  /\ match_entry entry [" Segmentation "] = true
  /\ match_entry entry ["mri and ct"] = true
  /\ match_entry entry ["mri AND pet"] = false.
Proof.
  intros entry.
  assert (Py.contains " NOT " " Segmentation " = false) as H1 by reflexivity.
  assert (Py.contains " AND " " Segmentation " = false) as H2 by reflexivity.
  split; [exact H1|]. split; [exact H2|]. split.
  - rewrite (single_term_query entry " Segmentation " H1 H2). reflexivity.
  - split; reflexivity.
Defined.
